(** * Effects of the block-editor store

    A shallow embedding of [packages/block-editor/src/store/effects.js]:
    the handlers that react to store actions by emitting further actions
    (template validity, selection continuity, default content, block merge,
    template synchronisation) and the table that registers them.

    The handlers are embedded as functions from the triggering action and
    the store state to an [Effect]: the actions the handler passed to
    [store.dispatch], in order, and how the handler ended (a returned
    action, nothing, or a thrown exception).  The selectors of
    [./selectors] and the functions of [@wordpress/blocks] are interfaces
    the handlers are parametrised by. *)

From Stdlib Require Import ZArith.
From stdpp Require Import base decidable option list strings gmap.

#[local] Set Warnings "-register-all".

Open Scope string_scope.
Open Scope Z_scope.

(** ** JavaScript values *)

Module JS.

(** The primitive values an action flag, a setting or a block attribute
    may hold. *)
Inductive Value : Type :=
| VUndefined
| VNull
| VBool (b : bool)
| VNum (z : Z)
| VStr (s : string).

#[global] Instance Value_eq_dec : EqDecision Value.
Proof. solve_decision. Defined.

(** [ToBoolean] on primitive values. *)
Definition truthy (v : Value) : bool :=
  match v with
  | VUndefined | VNull => false
  | VBool b => b
  | VNum z => negb (z =? 0)
  | VStr s => negb (String.eqb s "")
  end.

(** A client id or [null]; [a || b] on such values: the empty string is
    falsy, as [null] is. *)
Definition or_else (a b : option string) : option string :=
  match a with
  | Some s => if decide (s = "") then b else a
  | None => b
  end.

(** The exceptions the handlers can raise. *)
Inductive Error : Type :=
| TypeError.

(** A call that either yields a value or throws. *)
Inductive Exc (A : Type) : Type :=
| Ok (a : A)
| Throw (e : Error).
Arguments Ok {A} a.
Arguments Throw {A} e.

End JS.
Import JS.

(** ** Blocks, templates and actions *)

(** A block object: [clientId], [name], [attributes], [innerBlocks]. *)
Inductive Block : Type := mkBlock {
  clientId : string;
  name : string;
  attributes : gmap string Value;
  innerBlocks : list Block;
}.

(** [{ ...block, attributes }] *)
Definition withAttributes (b : Block) (attrs : gmap string Value) : Block :=
  {| clientId := clientId b; name := name b;
     attributes := attrs; innerBlocks := innerBlocks b |}.

(** [{ ...block, innerBlocks }] *)
Definition withInnerBlocks (b : Block) (inner : list Block) : Block :=
  {| clientId := clientId b; name := name b;
     attributes := attributes b; innerBlocks := inner |}.

(** [{ ...a, ...b }] on attribute objects: the properties of [b] win. *)
Definition spread (a b : gmap string Value) : gmap string Value := b ∪ a.

(** A template entry [[ name, attributes, innerBlocksTemplate ]]; the third
    component may be left out. *)
Inductive TemplateEntry : Type :=
| Entry (t_name : string) (t_attributes : gmap string Value)
        (t_inner : option (list TemplateEntry)).

Abbreviation Template := (list TemplateEntry).

Definition entry_name (e : TemplateEntry) : string :=
  match e with Entry n _ _ => n end.
Definition entry_attributes (e : TemplateEntry) : gmap string Value :=
  match e with Entry _ a _ => a end.
Definition entry_inner (e : TemplateEntry) : option Template :=
  match e with Entry _ _ i => i end.

(** The actions the handlers receive and emit.  [SelectBlock] carries the
    target client id and the [initialPosition] argument ([None] when the
    caller left it out); [MergeBlocks] carries the [blocks] array of client
    ids; [RemoveBlocks] the [clientIds] array and the [selectPrevious]
    flag. *)
Inductive Action : Type :=
| ResetBlocks (blocks : list Block)
| RemoveBlocks (clientIds : list string) (selectPrevious : Value)
| ReplaceBlocks (clientIds : list string) (blocks : list Block)
| MergeBlocks (blocks : list string)
| MultiSelect (start finish : string)
| SynchronizeTemplate
| SelectBlock (target : option string) (initialPosition : option Z)
| SetTemplateValidity (isValid : bool)
| InsertDefaultBlock.

(** [action.type] *)
Definition action_type (a : Action) : string :=
  match a with
  | ResetBlocks _ => "RESET_BLOCKS"
  | RemoveBlocks _ _ => "REMOVE_BLOCKS"
  | ReplaceBlocks _ _ => "REPLACE_BLOCKS"
  | MergeBlocks _ => "MERGE_BLOCKS"
  | MultiSelect _ _ => "MULTI_SELECT"
  | SynchronizeTemplate => "SYNCHRONIZE_TEMPLATE"
  | SelectBlock _ _ => "SELECT_BLOCK"
  | SetTemplateValidity _ => "SET_TEMPLATE_VALIDITY"
  | InsertDefaultBlock => "INSERT_BLOCKS"
  end.

(** [action.blocks] read as a list of blocks; [None] is [undefined]. *)
Definition action_blocks (a : Action) : option (list Block) :=
  match a with
  | ResetBlocks bs | ReplaceBlocks _ bs => Some bs
  | _ => None
  end.

(** [action.blocks] read as the array of client ids a merge carries. *)
Definition action_mergeIds (a : Action) : option (list string) :=
  match a with
  | MergeBlocks ids => Some ids
  | _ => None
  end.

(** [action.clientIds] *)
Definition action_clientIds (a : Action) : option (list string) :=
  match a with
  | RemoveBlocks ids _ | ReplaceBlocks ids _ => Some ids
  | _ => None
  end.

(** [action.selectPrevious] *)
Definition action_selectPrevious (a : Action) : Value :=
  match a with
  | RemoveBlocks _ flag => flag
  | _ => VUndefined
  end.

(** Modelled from the spec: the action creators of [./actions], which is
    not among the sources.  Each builds the action of its name from its
    arguments; [selectBlock] called with one argument leaves
    [initialPosition] unset. *)
Definition selectBlock (target : option string) (initialPosition : option Z)
  : Action := SelectBlock target initialPosition.
Definition replaceBlocks (ids : list string) (blocks : list Block) : Action :=
  ReplaceBlocks ids blocks.
Definition setTemplateValidity (isValid : bool) : Action :=
  SetTemplateValidity isValid.
Definition insertDefaultBlock : Action := InsertDefaultBlock.
Definition resetBlocks (blocks : list Block) : Action := ResetBlocks blocks.

(** ** The store state *)

(** [state.editor]: the present document and the history of past ones.
    [present] is optional because the handler for removals rebuilds a state
    whose present is [last( state.editor.past )], which is [undefined] for
    an empty history. *)
Record Editor : Type := mkEditor {
  present : option (list Block);
  past : list (list Block);
}.

(** Modelled from the spec: the state object built by the reducers, which
    are not among the sources.  Beside [editor], which the source reads
    directly, it holds what the spec's data model lists: the selected block,
    the template with its lock, and the cached validity flag. *)
Record State : Type := mkState {
  editor : Editor;
  selection : option string;
  template : option Template;
  templateLock : Value;
  isValidToTemplate : bool;
}.

(** [{ ...state, editor }] *)
Definition withEditor (s : State) (e : Editor) : State :=
  {| editor := e; selection := selection s; template := template s;
     templateLock := templateLock s;
     isValidToTemplate := isValidToTemplate s |}.

(** ** The interfaces the handlers call *)

(** The selectors imported from [./selectors].  The two the source applies
    to the rebuilt previous state may throw there, since that state's
    present can be [undefined]. *)
Class Selectors : Type := {
  getBlock : State → option string → option Block;
  getBlocks : State → list Block;
  getSelectedBlockCount : State → nat;
  getBlockCount : State → nat;
  getBlockRootClientId : State → option string → Exc (option string);
  getPreviousBlockClientId : State → option string → Exc (option string);
  getSelectedBlockClientId : State → option string;
  getTemplateLock : State → Value;
  getTemplate : State → option Template;
  isValidTemplate : State → bool;
}.

(** A block type as [getBlockType] returns it; only its optional [merge]
    function matters here. *)
Record BlockType : Type := mkBlockType {
  merge : option (gmap string Value → gmap string Value → gmap string Value);
}.

(** The functions imported from [@wordpress/blocks].  [getBlockType] yields
    [undefined] for a name that is not registered, [switchToBlockType]
    yields [null] when no transform applies. *)
Class BlocksAPI : Type := {
  getBlockType : string → option BlockType;
  switchToBlockType : Block → string → option (list Block);
  doBlocksMatchTemplate : option (list Block) → Template → bool;
  synchronizeBlocksWithTemplate : list Block → option Template → list Block;
}.

(** ** Handler results *)

Inductive Outcome : Type :=
| Returned (a : option Action)
| Threw (e : Error).

(** What running a handler did: the actions it handed to [dispatch], in
    order, and how it ended. *)
Record Effect : Type := mkEffect {
  dispatched : list Action;
  outcome : Outcome;
}.

Definition returns (a : option Action) : Effect :=
  {| dispatched := []; outcome := Returned a |}.
Definition throws (e : Error) : Effect :=
  {| dispatched := []; outcome := Threw e |}.

(** Every action a handler emitted: those it dispatched itself, then the
    one it returned. *)
Definition emitted (e : Effect) : list Action :=
  dispatched e ++
  match outcome e with
  | Returned (Some a) => [a]
  | _ => []
  end.

Definition try {A : Type} (m : Exc A) (k : A → Effect) : Effect :=
  match m with
  | Ok a => k a
  | Throw e => throws e
  end.

(** Reading a property of a value that may be [null] or [undefined]. *)
Definition deref {A : Type} (m : option A) (k : A → Effect) : Effect :=
  match m with
  | Some a => k a
  | None => throws TypeError
  end.

Notation "'let?' x ← m 'in' k" := (try m (fun x => k))
  (at level 10, x name, m at level 100, k at level 200).
Notation "'let!' x ← m 'in' k" := (deref m (fun x => k))
  (at level 10, x name, m at level 100, k at level 200).

(** ** The handlers of [effects.js] *)

Section Handlers.

Context `{Q : Selectors} `{B : BlocksAPI}.

(** [isBlocksValidToTemplate], the validity [validateBlocksToTemplate]
    computes: unlocked templates are always valid. *)
Definition isBlocksValidToTemplate (action : Action) (state : State) : bool :=
  match getTemplate state with
  | None => true
  | Some template =>
      if decide (getTemplateLock state ≠ VStr "all") then true
      else doBlocksMatchTemplate (action_blocks action) template
  end.

Definition validateBlocksToTemplate (action : Action) (state : State)
  : Effect :=
  let valid := isBlocksValidToTemplate action state in
  if decide (valid ≠ isValidTemplate state)
  then returns (Some (setTemplateValidity valid))
  else returns None.

(** The state before the block was removed:
    [{ ...state, editor: { present: last( state.editor.past ) } }].  The
    rebuilt [editor] has no [past]; [last] of a missing array and of an
    empty one are both [undefined]. *)
Definition previousState (state : State) : State :=
  withEditor state
    {| present := last (past (editor state)); past := [] |}.

(** [blockClientIdToSelect] of [selectPreviousBlock]. *)
Definition blockClientIdToSelect (state : State)
    (firstRemovedBlockClientId : option string) : Exc (option string) :=
  match getBlockRootClientId (previousState state)
          firstRemovedBlockClientId with
  | Throw e => Throw e
  | Ok rootClientId =>
      match getPreviousBlockClientId (previousState state)
              firstRemovedBlockClientId with
      | Throw e => Throw e
      | Ok previous => Ok (or_else previous rootClientId)
      end
  end.

Definition selectPreviousBlock (action : Action) (state : State) : Effect :=
  if negb (truthy (action_selectPrevious action)) then returns None
  else
    let! clientIds ← action_clientIds action in
    let firstRemovedBlockClientId := clientIds !! 0%nat in
    let selectedBlockClientId := getSelectedBlockClientId state in
    let? target ← blockClientIdToSelect state firstRemovedBlockClientId in
    if decide (target ≠ selectedBlockClientId)
    then returns (Some (selectBlock target (Some (-1))))
    else returns None.

Definition ensureDefaultBlock (action : Action) (state : State) : Effect :=
  if decide (getBlockCount state = 0%nat)
  then returns (Some insertDefaultBlock)
  else returns None.

(** [blocksWithTheSameType] of the merge handler. *)
Definition blocksWithTheSameType (blockA blockB : Block)
  : option (list Block) :=
  if decide (name blockA = name blockB) then Some [blockB]
  else switchToBlockType blockB (name blockA).

(** The block that replaces the merged pair's first block:
    [{ ...blockA, attributes: { ...blockA.attributes, ...updatedAttributes } }]. *)
Definition mergedBlock (blockA : Block)
    (updatedAttributes : gmap string Value) : Block :=
  withAttributes blockA (spread (attributes blockA) updatedAttributes).

Definition MERGE_BLOCKS (action : Action) (state : State) : Effect :=
  let! ids ← action_mergeIds action in
  let firstBlockClientId := ids !! 0%nat in
  let secondBlockClientId := ids !! 1%nat in
  let! blockA ← getBlock state firstBlockClientId in
  let! blockType ← getBlockType (name blockA) in
  match merge blockType with
  | None =>
      {| dispatched := [selectBlock (Some (clientId blockA)) None];
         outcome := Returned None |}
  | Some mergeFn =>
      let! blockB ← getBlock state secondBlockClientId in
      match blocksWithTheSameType blockA blockB with
      | None | Some [] => returns None
      | Some (candidate :: others) =>
          let updatedAttributes :=
            mergeFn (attributes blockA) (attributes candidate) in
          {| dispatched :=
               [ selectBlock (Some (clientId blockA)) (Some (-1));
                 replaceBlocks [clientId blockA; clientId blockB]
                   (mergedBlock blockA updatedAttributes :: others) ];
             outcome := Returned None |}
      end
  end.

(** [MULTI_SELECT] only announces the number of selected blocks through
    [speak]; it hands nothing to the store. *)
Definition MULTI_SELECT (action : Action) (state : State) : Effect :=
  let blockCount := getSelectedBlockCount state in
  returns None.

Definition SYNCHRONIZE_TEMPLATE (action : Action) (state : State) : Effect :=
  let blocks := getBlocks state in
  let template := getTemplate state in
  let updatedBlockList := synchronizeBlocksWithTemplate blocks template in
  returns (Some (resetBlocks updatedBlockList)).

(** The default export: the handlers registered for each action type, in
    order.  A type without an entry has no handlers. *)
Definition effects (type : string) : list (Action → State → Effect) :=
  if decide (type = "MERGE_BLOCKS") then [MERGE_BLOCKS]
  else if decide (type = "RESET_BLOCKS") then [validateBlocksToTemplate]
  else if decide (type = "REMOVE_BLOCKS")
       then [selectPreviousBlock; ensureDefaultBlock]
  else if decide (type = "REPLACE_BLOCKS") then [ensureDefaultBlock]
  else if decide (type = "MULTI_SELECT") then [MULTI_SELECT]
  else if decide (type = "SYNCHRONIZE_TEMPLATE") then [SYNCHRONIZE_TEMPLATE]
  else [].

End Handlers.

(** ** The dispatch pipeline *)

(** How a dispatch ended: the state reached and the actions that went
    through the store, in order. *)
Inductive Run : Type :=
| Finished (s : State) (log : list Action)
| Aborted (s : State) (log : list Action) (e : Error)
| OutOfFuel.

Section Pipeline.

Context `{Q : Selectors} `{B : BlocksAPI}.

(** The reducer applies an action to the state; it is not part of the
    effects module. *)
Variable reducer : State → Action → State.

Fixpoint dispatchAll (dispatch1 : Action → State → list Action → Run)
    (actions : list Action) (s : State) (log : list Action) : Run :=
  match actions with
  | [] => Finished s log
  | a :: rest =>
      match dispatch1 a s log with
      | Finished s' log' => dispatchAll dispatch1 rest s' log'
      | r => r
      end
  end.

Fixpoint runHandlers (dispatch1 : Action → State → list Action → Run)
    (handlers : list (Action → State → Effect)) (action : Action)
    (s : State) (log : list Action) : Run :=
  match handlers with
  | [] => Finished s log
  | handler :: rest =>
      let e := handler action s in
      match dispatchAll dispatch1 (dispatched e) s log with
      | Finished s1 log1 =>
          match outcome e with
          | Threw err => Aborted s1 log1 err
          | Returned None => runHandlers dispatch1 rest action s1 log1
          | Returned (Some a) =>
              match dispatch1 a s1 log1 with
              | Finished s2 log2 => runHandlers dispatch1 rest action s2 log2
              | r => r
              end
          end
      | r => r
      end
  end.

(** Modelled from the spec: the middleware that runs the registered
    handlers, which is not among the sources.  A dispatch first applies
    the action through the reducer, then invokes the handlers of the
    action's type in registration order on the store; the actions a
    handler dispatches, and the one it returns, go through the same
    pipeline, depth first, before the next handler runs.  [fuel] bounds
    the depth of the chain. *)
Fixpoint dispatch (fuel : nat) (action : Action) (s : State)
    (log : list Action) : Run :=
  match fuel with
  | O => OutOfFuel
  | S fuel' =>
      runHandlers (dispatch fuel') (effects (action_type action)) action
        (reducer s action) (log ++ [action])
  end.

(** The state after the actions a handler emitted were applied. *)
Definition settle (e : Effect) (s : State) : State :=
  foldl reducer s (emitted e).

End Pipeline.

(** ** Template functions, from their description *)

Section TemplateFunctions.

(** [createBlock( name, attributes, innerBlocks )] of [@wordpress/blocks]:
    a new block of the given type; how it picks the client id is left
    open. *)
Variable createBlock : string → gmap string Value → list Block → Block.

(** Modelled from the spec: [doBlocksMatchTemplate] of [@wordpress/blocks],
    which is not among the sources.  The block list and the template have
    the same number of entries and each block has the type name the
    template expects at its position, recursively for the children;
    attributes are not compared.  An entry without a child template
    expects no children. *)
Fixpoint blockMatchesEntry (e : TemplateEntry) (b : Block) {struct e}
  : bool :=
  match e with
  | Entry n _ inner =>
      bool_decide (n = name b) &&
      match inner with
      | None => bool_decide (length (innerBlocks b) = 0%nat)
      | Some es =>
          (fix go (es : list TemplateEntry) (bs : list Block) {struct es}
             : bool :=
             match es, bs with
             | [], [] => true
             | e' :: es', b' :: bs' => blockMatchesEntry e' b' && go es' bs'
             | _, _ => false
             end) es (innerBlocks b)
      end
  end.

Fixpoint blocksMatchTemplate (es : Template) (bs : list Block) : bool :=
  match es, bs with
  | [], [] => true
  | e :: es', b :: bs' => blockMatchesEntry e b && blocksMatchTemplate es' bs'
  | _, _ => false
  end.

Definition doBlocksMatchTemplate_spec (blocks : option (list Block))
    (template : Template) : bool :=
  blocksMatchTemplate template (default [] blocks).

(** Modelled from the spec: [synchronizeBlocksWithTemplate] of
    [@wordpress/blocks], which is not among the sources.  For each
    template entry, the block at that position is reused if its type
    matches, with its children reconciled the same way; otherwise a new
    block of the template's type is built.  Blocks beyond the template's
    length are dropped.  An absent template is no constraint: the blocks
    are kept as they are. *)
Fixpoint synchronizeEntry (e : TemplateEntry) (existing : option Block)
    {struct e} : Block :=
  match e with
  | Entry n attrs inner =>
      let children (bs : list Block) : list Block :=
        match inner with
        | None => bs
        | Some es =>
            (fix go (es : list TemplateEntry) (bs : list Block) {struct es}
               : list Block :=
               match es with
               | [] => []
               | e' :: es' => synchronizeEntry e' (head bs) :: go es' (tail bs)
               end) es bs
        end in
      match existing with
      | Some b =>
          if decide (name b = n)
          then withInnerBlocks b (children (innerBlocks b))
          else createBlock n attrs (children [])
      | None => createBlock n attrs (children [])
      end
  end.

Fixpoint synchronizeEntries (es : Template) (bs : list Block)
  : list Block :=
  match es with
  | [] => []
  | e :: es' => synchronizeEntry e (head bs) :: synchronizeEntries es' (tail bs)
  end.

Definition synchronizeBlocksWithTemplate_spec (blocks : list Block)
    (template : option Template) : list Block :=
  match template with
  | None => blocks
  | Some es => synchronizeEntries es blocks
  end.

(** The functions of [@wordpress/blocks] with a given registry of block
    types and the template functions above. *)
Definition blocksAPI (getType : string → option BlockType)
    (switchTo : Block → string → option (list Block)) : BlocksAPI :=
  {| getBlockType := getType;
     switchToBlockType := switchTo;
     doBlocksMatchTemplate := doBlocksMatchTemplate_spec;
     synchronizeBlocksWithTemplate := synchronizeBlocksWithTemplate_spec |}.

End TemplateFunctions.

(** ** A reference store

    A concrete store over block trees, used to run the handlers on the
    documents the specification gives as examples. *)

Module Reference.

(** The client id the document itself has as a container of its top-level
    blocks. *)
Definition rootClientId : string := "".

Fixpoint findBlock (id : string) (b : Block) {struct b} : option Block :=
  match b with
  | mkBlock cid _ _ inner =>
      if decide (cid = id) then Some b
      else
        (fix go (bs : list Block) : option Block :=
           match bs with
           | [] => None
           | c :: cs =>
               match findBlock id c with
               | Some r => Some r
               | None => go cs
               end
           end) inner
  end.

Fixpoint findInBlocks (id : string) (bs : list Block) : option Block :=
  match bs with
  | [] => None
  | c :: cs =>
      match findBlock id c with
      | Some r => Some r
      | None => findInBlocks id cs
      end
  end.

(** The container that holds [id] among its children, with the ids of
    those children in order. *)
Fixpoint siblingsIn (id : string) (container : Block) {struct container}
  : option (string * list string) :=
  match container with
  | mkBlock cid _ _ inner =>
      if bool_decide (id ∈ clientId <$> inner)
      then Some (cid, clientId <$> inner)
      else
        (fix go (bs : list Block) : option (string * list string) :=
           match bs with
           | [] => None
           | c :: cs =>
               match siblingsIn id c with
               | Some r => Some r
               | None => go cs
               end
           end) inner
  end.

Definition siblings (id : string) (doc : list Block)
  : option (string * list string) :=
  siblingsIn id (mkBlock rootClientId "" ∅ doc).

(** The element just before [id] in a list of ids. *)
Fixpoint before (id : string) (ids : list string) : option string :=
  match ids with
  | a :: rest =>
      match rest with
      | b :: _ => if decide (b = id) then Some a else before id rest
      | [] => None
      end
  | [] => None
  end.

(** Modelled from the spec: the selectors of [./selectors], which is not
    among the sources.  They read the present document: a block by id,
    the top-level blocks and their number, the container of a block (the
    document for a top-level block), the sibling just before a block,
    the selected block, the template, its lock and the cached validity.
    The two selectors that walk the document throw on a state without a
    present document. *)
Definition selectors : Selectors :=
  {| getBlock s id :=
       match id, present (editor s) with
       | Some i, Some doc => findInBlocks i doc
       | _, _ => None
       end;
     getBlocks s := default [] (present (editor s));
     getSelectedBlockCount s :=
       match selection s with Some _ => 1%nat | None => 0%nat end;
     getBlockCount s := length (default [] (present (editor s)));
     getBlockRootClientId s id :=
       match present (editor s) with
       | None => Throw TypeError
       | Some doc => Ok (i ← id; fst <$> siblings i doc)
       end;
     getPreviousBlockClientId s id :=
       match present (editor s) with
       | None => Throw TypeError
       | Some doc => Ok (i ← id; r ← siblings i doc; before i (snd r))
       end;
     getSelectedBlockClientId s := selection s;
     getTemplateLock s := templateLock s;
     getTemplate s := template s;
     isValidTemplate s := isValidToTemplate s |}.

Definition createBlock (n : string) (attrs : gmap string Value)
    (inner : list Block) : Block :=
  mkBlock (String.append "new-" n) n attrs inner.

Definition defaultBlock : Block := createBlock "paragraph" ∅ [].

Definition textOf (a : gmap string Value) : string :=
  match a !! "text" with
  | Some (VStr t) => t
  | _ => ""
  end.

(** A merge behaviour that concatenates [text]. *)
Definition concatText (a b : gmap string Value) : gmap string Value :=
  {[ "text" := VStr (String.append (textOf a) (textOf b)) ]}.

(** A registry with one mergeable type, ["x"], and one type without a
    merge behaviour, ["image"]. *)
Definition getType (n : string) : option BlockType :=
  if decide (n = "x") then Some {| merge := Some concatText |}
  else if decide (n = "image") then Some {| merge := None |}
  else None.

(** A ["quote"] block turns into two ["x"] blocks, the first keeping its
    client id; nothing else can be transformed. *)
Definition switchTo (b : Block) (target : string) : option (list Block) :=
  if decide (name b = "quote" ∧ target = "x")
  then Some [ mkBlock (clientId b) "x" (attributes b) [];
              mkBlock (String.append (clientId b) "-cite") "x" ∅ [] ]
  else None.

Definition api : BlocksAPI := blocksAPI createBlock getType switchTo.

Definition withPresent (s : State) (doc : list Block) : State :=
  withEditor s
    {| present := Some doc;
       past := past (editor s) ++ option_list (present (editor s)) |}.

(** The top-level blocks with those of the given ids replaced by
    [blocks], put where the first of them was. *)
Fixpoint replaceIn (ids : list string) (blocks doc : list Block)
  : list Block :=
  match doc with
  | [] => []
  | b :: rest =>
      if bool_decide (clientId b ∈ ids)
      then blocks ++ filter (λ c, clientId c ∉ ids) rest
      else b :: replaceIn ids blocks rest
  end.

(** Modelled from the spec: the reducer, which is not among the sources,
    on top-level blocks.  A reset installs the block list, a removal
    drops the blocks, a replacement substitutes them, inserting the
    default block appends one empty block, a selection and a validity
    update store their value; each change of the document appends the
    former one to the history. *)
Definition reducer (s : State) (a : Action) : State :=
  let doc := default [] (present (editor s)) in
  match a with
  | ResetBlocks bs => withPresent s bs
  | RemoveBlocks ids _ => withPresent s (replaceIn ids [] doc)
  | ReplaceBlocks ids bs => withPresent s (replaceIn ids bs doc)
  | InsertDefaultBlock => withPresent s (doc ++ [defaultBlock])
  | SelectBlock target _ =>
      {| editor := editor s; selection := target; template := template s;
         templateLock := templateLock s;
         isValidToTemplate := isValidToTemplate s |}
  | SetTemplateValidity v =>
      {| editor := editor s; selection := selection s;
         template := template s; templateLock := templateLock s;
         isValidToTemplate := v |}
  | MergeBlocks _ | MultiSelect _ _ | SynchronizeTemplate => s
  end.

Definition block (id n : string) (attrs : gmap string Value) : Block :=
  mkBlock id n attrs [].

Definition store (doc : list Block) (history : list (list Block))
    (selected : option string) : State :=
  {| editor := {| present := Some doc; past := history |};
     selection := selected; template := None; templateLock := VBool false;
     isValidToTemplate := true |}.

Definition templateStore (doc : list Block) (tpl : Template) (lock : Value)
    (valid : bool) : State :=
  {| editor := {| present := Some doc; past := [] |};
     selection := None; template := Some tpl; templateLock := lock;
     isValidToTemplate := valid |}.

(** The documents of the specification's examples. *)
Definition hello : Block := block "a" "x" {[ "text" := VStr "Hello " ]}.
Definition world : Block := block "b" "x" {[ "text" := VStr "World" ]}.
Definition aligned : Block :=
  block "a" "x" (<[ "align" := VStr "left" ]> {[ "text" := VStr "Hello " ]}).
Definition picture : Block := block "img" "image" ∅.
Definition cited : Block := block "q" "quote" {[ "text" := VStr "Cite" ]}.
Definition paragraph (id : string) : Block :=
  block id "paragraph" {[ "text" := VStr id ]}.
Definition threeParagraphs : list Block :=
  [paragraph "P1"; paragraph "P2"; paragraph "P3"].

End Reference.

(** ** Properties of the handlers *)

Section Registry.

Context `{Q : Selectors} `{B : BlocksAPI}.

Lemma effects_reset_blocks :
  effects "RESET_BLOCKS" = [validateBlocksToTemplate].
Proof. reflexivity. Qed.

Lemma effects_remove_blocks :
  effects "REMOVE_BLOCKS" = [selectPreviousBlock; ensureDefaultBlock].
Proof. reflexivity. Qed.

Lemma effects_replace_blocks :
  effects "REPLACE_BLOCKS" = [ensureDefaultBlock].
Proof. reflexivity. Qed.

Lemma effects_merge_blocks : effects "MERGE_BLOCKS" = [MERGE_BLOCKS].
Proof. reflexivity. Qed.

Lemma effects_synchronize_template :
  effects "SYNCHRONIZE_TEMPLATE" = [SYNCHRONIZE_TEMPLATE].
Proof. reflexivity. Qed.

(** The actions the handlers emit other than a reset or a replacement
    have no handlers of their own. *)
Lemma effects_select_block : effects "SELECT_BLOCK" = [].
Proof. reflexivity. Qed.

Lemma effects_set_template_validity : effects "SET_TEMPLATE_VALIDITY" = [].
Proof. reflexivity. Qed.

Lemma effects_insert_blocks : effects "INSERT_BLOCKS" = [].
Proof. reflexivity. Qed.

Variable reducer : State → Action → State.

(** An action without handlers is applied and ends the chain. *)
Lemma dispatch_no_handlers (fuel : nat) (a : Action) (s : State)
    (log : list Action) :
  effects (action_type a) = [] →
  dispatch reducer (S fuel) a s log = Finished (reducer s a) (log ++ [a]).
Proof. intros H. simpl. rewrite H. reflexivity. Qed.

(** A dispatch with a single handler that neither throws nor dispatches
    on its own. *)
Lemma dispatch_single_returning (fuel : nat) (a : Action) (s : State)
    (log : list Action) (h : Action → State → Effect) (r : option Action) :
  effects (action_type a) = [h] →
  h a (reducer s a) = returns r →
  dispatch reducer (S fuel) a s log =
    match r with
    | None => Finished (reducer s a) (log ++ [a])
    | Some a' => dispatch reducer fuel a' (reducer s a) (log ++ [a])
    end.
Proof.
  intros Hh Hr. simpl. rewrite Hh. simpl. rewrite Hr. simpl.
  destruct r as [a'|]; [|reflexivity].
  destruct (dispatch reducer fuel a' (reducer s a) (log ++ [a]));
    reflexivity.
Qed.

(** The chain a reset starts: the validity effect runs on the state the
    reset left, and what it emits is applied and ends the chain. *)
Lemma dispatch_reset_blocks (fuel : nat) (blocks : list Block)
    (s : State) (log : list Action) :
  let s' := reducer s (ResetBlocks blocks) in
  let e := validateBlocksToTemplate (ResetBlocks blocks) s' in
  dispatch reducer (S (S fuel)) (ResetBlocks blocks) s log
    = Finished (settle reducer e s')
        ((log ++ [ResetBlocks blocks]) ++ emitted e).
Proof.
  intros s' e.
  destruct (decide (isBlocksValidToTemplate (ResetBlocks blocks) s'
                    ≠ isValidTemplate s')) as [Hne|He].
  - assert (Hr : e = returns (Some (SetTemplateValidity
                   (isBlocksValidToTemplate (ResetBlocks blocks) s')))).
    { unfold e, validateBlocksToTemplate.
      rewrite decide_True by exact Hne. reflexivity. }
    rewrite (dispatch_single_returning (S fuel) (ResetBlocks blocks)
               s log validateBlocksToTemplate _ eq_refl Hr).
    rewrite dispatch_no_handlers by reflexivity.
    rewrite Hr. reflexivity.
  - assert (Hr : e = returns None).
    { unfold e, validateBlocksToTemplate.
      rewrite decide_False by exact He. reflexivity. }
    rewrite (dispatch_single_returning (S fuel) (ResetBlocks blocks)
               s log validateBlocksToTemplate _ eq_refl Hr).
    rewrite Hr. unfold settle, emitted. simpl. rewrite app_nil_r.
    reflexivity.
Qed.

End Registry.

Section Validity.

Context `{Q : Selectors} `{B : BlocksAPI}.

Lemma validateBlocksToTemplate_emitted (action : Action) (state : State) :
  emitted (validateBlocksToTemplate action state) =
    if decide (isBlocksValidToTemplate action state = isValidTemplate state)
    then []
    else [SetTemplateValidity (isBlocksValidToTemplate action state)].
Proof.
  unfold validateBlocksToTemplate.
  destruct (decide (isBlocksValidToTemplate action state
                    = isValidTemplate state)) as [He|Hne].
  - rewrite decide_False by (intros Hc; exact (Hc He)). reflexivity.
  - rewrite decide_True by exact Hne. reflexivity.
Qed.

(** C4: whatever the reset's block list, when no template is configured
    or the template lock is not ['all'], the validity the effect computes
    is [true]; the effect then only ever sets the cached flag to [true]. *)
Theorem unlocked_template_always_valid (blocks : list Block)
    (state : State) :
  getTemplate state = None ∨ getTemplateLock state ≠ VStr "all" →
  isBlocksValidToTemplate (ResetBlocks blocks) state = true
  ∧ validateBlocksToTemplate (ResetBlocks blocks) state =
      returns (if isValidTemplate state then None
               else Some (SetTemplateValidity true)).
Proof.
  intros H.
  assert (Hv : isBlocksValidToTemplate (ResetBlocks blocks) state = true).
  { unfold isBlocksValidToTemplate.
    destruct (getTemplate state) as [tpl|]; [|reflexivity].
    destruct H as [H|H]; [discriminate|].
    rewrite decide_True by exact H. reflexivity. }
  split; [exact Hv|].
  unfold validateBlocksToTemplate. rewrite Hv.
  destruct (isValidTemplate state).
  - rewrite decide_False by (intros Hc; apply Hc; reflexivity). reflexivity.
  - rewrite decide_True by discriminate. reflexivity.
Qed.

Variable reducer : State → Action → State.

(** C8: the validity effect emits a set-validity action, carrying the
    computed validity, exactly when that validity differs from the cached
    flag; on a state whose cached flag equals the computed validity it
    emits nothing, and a reset that leaves the two equal ends the chain
    at once: nothing but the reset itself goes through the store. *)
Theorem validity_emitted_iff_changed (action : Action) (state : State)
    (blocks : list Block) (fuel : nat) :
  let computed := isBlocksValidToTemplate action state in
  let afterReset := reducer state (ResetBlocks blocks) in
  (validateBlocksToTemplate action state
     = returns (Some (SetTemplateValidity computed))
   ↔ computed ≠ isValidTemplate state)
  ∧ (validateBlocksToTemplate action state = returns None
     ↔ computed = isValidTemplate state)
  ∧ (computed = isValidTemplate state →
     emitted (validateBlocksToTemplate action state) = [])
  ∧ (isBlocksValidToTemplate (ResetBlocks blocks) afterReset
       = isValidTemplate afterReset →
     dispatch reducer (S fuel) (ResetBlocks blocks) state []
       = Finished afterReset [ResetBlocks blocks]).
Proof.
  intros computed afterReset. repeat split.
  - unfold validateBlocksToTemplate. fold computed.
    destruct (decide (computed ≠ isValidTemplate state)); [tauto|].
    discriminate.
  - intros Hne. unfold validateBlocksToTemplate. fold computed.
    rewrite decide_True by exact Hne. reflexivity.
  - unfold validateBlocksToTemplate. fold computed.
    destruct (decide (computed ≠ isValidTemplate state)) as [Hne|He].
    + discriminate.
    + intros _. destruct (decide (computed = isValidTemplate state)); tauto.
  - intros He. unfold validateBlocksToTemplate. fold computed.
    rewrite decide_False by (intros Hc; exact (Hc He)). reflexivity.
  - intros He. rewrite validateBlocksToTemplate_emitted. fold computed.
    rewrite decide_True by exact He. reflexivity.
  - intros He.
    rewrite (dispatch_single_returning reducer fuel (ResetBlocks blocks)
               state [] validateBlocksToTemplate None).
    + reflexivity.
    + reflexivity.
    + fold afterReset. unfold validateBlocksToTemplate.
      rewrite decide_False by (intros Hc; exact (Hc He)). reflexivity.
Qed.

End Validity.

Section Selection.

Context `{Q : Selectors}.

(** The state the removal handler looks the removed block up in holds the
    most recent entry of the history as its document. *)
Lemma previousState_present (state : State) :
  present (editor (previousState state)) = last (past (editor state)).
Proof. reflexivity. Qed.

Lemma or_else_nonempty (a b : option string) :
  a ≠ Some "" →
  or_else a b = match a with Some p => Some p | None => b end.
Proof.
  intros Ha. destruct a as [p|]; [|reflexivity].
  unfold or_else. destruct (decide (p = "")) as [->|]; [|reflexivity].
  contradiction Ha. reflexivity.
Qed.

(** C2: with a falsy [selectPrevious] flag the handler returns nothing.
    With a truthy flag, the target is looked up in the state rebuilt from
    the most recent history entry: it is the sibling just before the first
    removed id or, when there is none, the container of the removed block;
    a select-block action for the target with offset [-1] is returned
    exactly when the target is not the selected block already, and nothing
    is returned otherwise.  Client ids of blocks are not the empty
    string. *)
Theorem selectPreviousBlock_selects_sibling_or_container
    (clientIds : list string) (flag : Value) (state : State) :
  let result := selectPreviousBlock (RemoveBlocks clientIds flag) state in
  present (editor (previousState state)) = last (past (editor state))
  ∧ (truthy flag = false → result = returns None ∧ emitted result = [])
  ∧ (∀ container sibling : option string,
       truthy flag = true →
       getBlockRootClientId (previousState state) (clientIds !! 0%nat)
         = Ok container →
       getPreviousBlockClientId (previousState state) (clientIds !! 0%nat)
         = Ok sibling →
       sibling ≠ Some "" →
       let target :=
         match sibling with
         | Some before => Some before
         | None => container
         end in
       (target ≠ getSelectedBlockClientId state ↔
          result = returns (Some (SelectBlock target (Some (-1)))))
       ∧ (target = getSelectedBlockClientId state ↔ result = returns None)).
Proof.
  intros result. split; [reflexivity|]. split.
  - intros Hflag. unfold result, selectPreviousBlock. simpl.
    rewrite Hflag. split; reflexivity.
  - intros container sibling Hflag Hroot Hprev Hid target.
    assert (Hres : result =
              if decide (target ≠ getSelectedBlockClientId state)
              then returns (Some (SelectBlock target (Some (-1))))
              else returns None).
    { unfold result, selectPreviousBlock. simpl. rewrite Hflag. simpl.
      unfold blockClientIdToSelect. rewrite Hroot, Hprev. simpl.
      rewrite (or_else_nonempty _ _ Hid). reflexivity. }
    rewrite Hres.
    destruct (decide (target ≠ getSelectedBlockClientId state)) as [Hne|He].
    + split; split; try tauto; try discriminate.
    + split; split; try tauto; try discriminate.
      intros _. destruct (decide (target = getSelectedBlockClientId state));
        tauto.
Qed.

End Selection.

Section DefaultContent.

Context `{Q : Selectors}.

Variable reducer : State → Action → State.

(** Modelled from the spec: what the reducer, which is not among the
    sources, does with the insert-default-block action: a single empty
    block of the default type is appended to the document. *)
Hypothesis insert_default_appends :
  ∀ s, getBlockCount (reducer s InsertDefaultBlock) = S (getBlockCount s).

Lemma ensureDefaultBlock_result (action : Action) (state : State) :
  ensureDefaultBlock action state =
    if decide (getBlockCount state = 0%nat)
    then returns (Some InsertDefaultBlock)
    else returns None.
Proof. reflexivity. Qed.

(** C3: the default-content effect is registered for removals and for
    replacements; run on the state the action left, it emits an
    insert-default-block action exactly when the block count is zero, so
    that once what it emitted is applied the block count is at least 1. *)
Theorem ensureDefaultBlock_keeps_document_nonempty `{B : BlocksAPI}
    (action : Action) (state : State) :
  action_type action = "REMOVE_BLOCKS"
  ∨ action_type action = "REPLACE_BLOCKS" →
  last (effects (action_type action)) = Some ensureDefaultBlock
  ∧ (emitted (ensureDefaultBlock action state) = [InsertDefaultBlock]
     ↔ getBlockCount state = 0%nat)
  ∧ (emitted (ensureDefaultBlock action state) = []
     ↔ getBlockCount state ≠ 0%nat)
  ∧ (1 ≤ getBlockCount
           (settle reducer (ensureDefaultBlock action state) state))%nat.
Proof.
  intros Hkind.
  split; [destruct Hkind as [-> | ->]; reflexivity|].
  rewrite ensureDefaultBlock_result.
  destruct (decide (getBlockCount state = 0%nat)) as [Hz|Hnz].
  - repeat split; try (intros; assumption); try discriminate.
    + intros Hc. contradiction (Hc Hz).
    + unfold settle. simpl. rewrite insert_default_appends. lia.
  - repeat split; try (intros; assumption); try discriminate.
    + intros Hc. contradiction (Hnz Hc).
    + unfold settle. simpl. lia.
Qed.

End DefaultContent.

Section Merge.

Context `{Q : Selectors} `{B : BlocksAPI}.

(** The handler's run once the receiving block and its mergeable type are
    resolved. *)
Lemma MERGE_BLOCKS_mergeable (ids : list string) (state : State)
    (blockA : Block) (blockType : BlockType)
    (mergeFn : gmap string Value → gmap string Value → gmap string Value) :
  getBlock state (ids !! 0%nat) = Some blockA →
  getBlockType (name blockA) = Some blockType →
  merge blockType = Some mergeFn →
  MERGE_BLOCKS (MergeBlocks ids) state =
    let! blockB ← getBlock state (ids !! 1%nat) in
    match blocksWithTheSameType blockA blockB with
    | None | Some [] => returns None
    | Some (candidate :: others) =>
        {| dispatched :=
             [ SelectBlock (Some (clientId blockA)) (Some (-1));
               ReplaceBlocks [clientId blockA; clientId blockB]
                 (mergedBlock blockA
                    (mergeFn (attributes blockA) (attributes candidate))
                  :: others) ];
           outcome := Returned None |}
    end.
Proof.
  intros HA HT Hm. unfold MERGE_BLOCKS. simpl.
  rewrite HA. simpl. rewrite HT. simpl. rewrite Hm. reflexivity.
Qed.

Lemma spread_lookup (a b : gmap string Value) (k : string) :
  spread a b !! k =
    match b !! k with
    | Some v => Some v
    | None => a !! k
    end.
Proof.
  unfold spread. rewrite lookup_union.
  destruct (b !! k), (a !! k); reflexivity.
Qed.

Lemma spread_covered (a b : gmap string Value) :
  dom a ⊆ dom b → spread a b = b.
Proof.
  intros Hdom. apply map_eq. intros k. rewrite spread_lookup.
  destruct (b !! k) as [v|] eqn:Hb; [reflexivity|].
  apply not_elem_of_dom. intros Hk. apply Hdom in Hk.
  apply elem_of_dom in Hk. rewrite Hb in Hk. destruct Hk; discriminate.
Qed.

(** C1, as the handler has it: for a receiving block A with a merge
    behaviour and a non-empty list of candidates, the handler dispatches
    a select-block action and then a replace action that substitutes the
    pair [A, B] with A carrying its own attributes overlaid with
    [merge(A.attributes, firstCandidate.attributes)], followed by the
    candidates beyond the first in order.  The overlay equals the merge
    result when that result defines every attribute of A.  B's id is
    among the ids of the replacement list only if it is A's id or the id
    of a candidate beyond the first; it is not when B has A's type and
    another id. *)
Theorem merge_replaces_pair_with_overlay (ids : list string)
    (state : State) (blockA blockB candidate : Block)
    (others : list Block) (blockType : BlockType)
    (mergeFn : gmap string Value → gmap string Value → gmap string Value) :
  getBlock state (ids !! 0%nat) = Some blockA →
  getBlockType (name blockA) = Some blockType →
  merge blockType = Some mergeFn →
  getBlock state (ids !! 1%nat) = Some blockB →
  blocksWithTheSameType blockA blockB = Some (candidate :: others) →
  let merged := mergeFn (attributes blockA) (attributes candidate) in
  let first := withAttributes blockA (merged ∪ attributes blockA) in
  MERGE_BLOCKS (MergeBlocks ids) state =
    {| dispatched :=
         [ SelectBlock (Some (clientId blockA)) (Some (-1));
           ReplaceBlocks [clientId blockA; clientId blockB]
             (first :: others) ];
       outcome := Returned None |}
  ∧ (∀ k, attributes first !! k =
            match merged !! k with
            | Some v => Some v
            | None => attributes blockA !! k
            end)
  ∧ (dom (attributes blockA) ⊆ dom merged → attributes first = merged)
  ∧ (clientId blockB ∈ clientId <$> first :: others ↔
       clientId blockB = clientId blockA
       ∨ clientId blockB ∈ clientId <$> others)
  ∧ (name blockA = name blockB →
     candidate = blockB ∧ others = []
     ∧ (clientId blockA ≠ clientId blockB →
        clientId blockB ∉ clientId <$> first :: others)).
Proof.
  intros HA HT Hm HB Hc merged first.
  split; [|split; [|split; [|split]]].
  - rewrite (MERGE_BLOCKS_mergeable ids state blockA blockType mergeFn HA HT Hm).
    rewrite HB. simpl. rewrite Hc. reflexivity.
  - intros k. apply (spread_lookup (attributes blockA) merged k).
  - intros Hdom. apply (spread_covered (attributes blockA) merged Hdom).
  - rewrite fmap_cons, elem_of_cons. simpl. reflexivity.
  - intros Hname. unfold blocksWithTheSameType in Hc.
    rewrite decide_True in Hc by exact Hname.
    injection Hc as <- <-. split; [reflexivity|]. split; [reflexivity|].
    intros Hid Hin. rewrite fmap_cons, elem_of_cons in Hin. simpl in Hin.
    destruct Hin as [Hin|Hin]; [congruence|].
    apply elem_of_nil in Hin. exact Hin.
Qed.

(** C5, as the handler has it: for a receiving block A with a merge
    behaviour, when B has another type and its transform into A's type
    yields [null] or no block, the handler dispatches and returns
    nothing: applying what it emitted leaves the state as it was. *)
Theorem merge_incompatible_types_is_noop (ids : list string)
    (state : State) (blockA blockB : Block) (blockType : BlockType)
    (mergeFn : gmap string Value → gmap string Value → gmap string Value)
    (reducer : State → Action → State) :
  getBlock state (ids !! 0%nat) = Some blockA →
  getBlockType (name blockA) = Some blockType →
  merge blockType = Some mergeFn →
  getBlock state (ids !! 1%nat) = Some blockB →
  name blockA ≠ name blockB →
  switchToBlockType blockB (name blockA) = None
  ∨ switchToBlockType blockB (name blockA) = Some [] →
  MERGE_BLOCKS (MergeBlocks ids) state = returns None
  ∧ emitted (MERGE_BLOCKS (MergeBlocks ids) state) = []
  ∧ settle reducer (MERGE_BLOCKS (MergeBlocks ids) state) state = state.
Proof.
  intros HA HT Hm HB Hname Hsw.
  assert (Hr : MERGE_BLOCKS (MergeBlocks ids) state = returns None).
  { rewrite (MERGE_BLOCKS_mergeable ids state blockA blockType mergeFn HA HT Hm).
    rewrite HB. simpl. unfold blocksWithTheSameType.
    rewrite decide_False by exact Hname.
    destruct Hsw as [-> | ->]; reflexivity. }
  rewrite Hr. repeat split.
Qed.

(** C6: when the type of the receiving block A has no merge behaviour,
    the handler dispatches exactly one action, a select-block action for
    A, and returns nothing, whatever the second id resolves to; no
    replace action is among what it emitted. *)
Theorem merge_not_mergeable_only_selects (ids : list string)
    (state : State) (blockA : Block) (blockType : BlockType) :
  getBlock state (ids !! 0%nat) = Some blockA →
  getBlockType (name blockA) = Some blockType →
  merge blockType = None →
  MERGE_BLOCKS (MergeBlocks ids) state =
    {| dispatched := [SelectBlock (Some (clientId blockA)) None];
       outcome := Returned None |}
  ∧ emitted (MERGE_BLOCKS (MergeBlocks ids) state)
      = [SelectBlock (Some (clientId blockA)) None]
  ∧ (∀ a, a ∈ emitted (MERGE_BLOCKS (MergeBlocks ids) state) →
          action_type a = "SELECT_BLOCK").
Proof.
  intros HA HT Hm.
  assert (Hr : MERGE_BLOCKS (MergeBlocks ids) state =
               {| dispatched := [SelectBlock (Some (clientId blockA)) None];
                  outcome := Returned None |}).
  { unfold MERGE_BLOCKS. simpl. rewrite HA. simpl. rewrite HT. simpl.
    rewrite Hm. reflexivity. }
  rewrite Hr. split; [reflexivity|]. split; [reflexivity|].
  intros a Ha. unfold emitted in Ha. simpl in Ha.
  apply list_elem_of_singleton in Ha. subst a. reflexivity.
Qed.

(** C7: when the receiving block A is mergeable and the second id does
    not resolve to a block, the handler throws before it dispatches
    anything: it emits no action, and the dispatch of the merge action
    ends aborted with that exception, the state being the one the merge
    action itself left. *)
Theorem merge_missing_second_block_throws (ids : list string)
    (state : State) (blockA : Block) (blockType : BlockType)
    (mergeFn : gmap string Value → gmap string Value → gmap string Value)
    (reducer : State → Action → State) (fuel : nat) :
  let reached := reducer state (MergeBlocks ids) in
  getBlock reached (ids !! 0%nat) = Some blockA →
  getBlockType (name blockA) = Some blockType →
  merge blockType = Some mergeFn →
  getBlock reached (ids !! 1%nat) = None →
  MERGE_BLOCKS (MergeBlocks ids) reached = throws TypeError
  ∧ emitted (MERGE_BLOCKS (MergeBlocks ids) reached) = []
  ∧ dispatch reducer (S fuel) (MergeBlocks ids) state []
      = Aborted reached [MergeBlocks ids] TypeError.
Proof.
  intros reached HA HT Hm HB.
  assert (Hr : MERGE_BLOCKS (MergeBlocks ids) reached = throws TypeError).
  { rewrite (MERGE_BLOCKS_mergeable ids reached blockA blockType mergeFn HA HT Hm).
    rewrite HB. reflexivity. }
  split; [exact Hr|]. split; [rewrite Hr; reflexivity|].
  simpl. fold reached. rewrite Hr. reflexivity.
Qed.

(** C10: on the path for a receiving type without merge behaviour the
    handler's select-block action carries no initial position; on the
    path that merges, its select-block action carries the offset [-1].
    Both target A, and the two actions differ. *)
Theorem merge_paths_select_with_different_positions (ids : list string)
    (state : State) (blockA : Block) (blockType : BlockType) :
  getBlock state (ids !! 0%nat) = Some blockA →
  getBlockType (name blockA) = Some blockType →
  (merge blockType = None →
   dispatched (MERGE_BLOCKS (MergeBlocks ids) state)
     = [selectBlock (Some (clientId blockA)) None])
  ∧ (∀ mergeFn blockB candidate others,
       merge blockType = Some mergeFn →
       getBlock state (ids !! 1%nat) = Some blockB →
       blocksWithTheSameType blockA blockB = Some (candidate :: others) →
       head (dispatched (MERGE_BLOCKS (MergeBlocks ids) state))
         = Some (selectBlock (Some (clientId blockA)) (Some (-1))))
  ∧ selectBlock (Some (clientId blockA)) None
      ≠ selectBlock (Some (clientId blockA)) (Some (-1)).
Proof.
  intros HA HT. split; [|split; [|discriminate]].
  - intros Hm. unfold MERGE_BLOCKS. simpl. rewrite HA. simpl.
    rewrite HT. simpl. rewrite Hm. reflexivity.
  - intros mergeFn blockB candidate others Hm HB Hc.
    rewrite (MERGE_BLOCKS_mergeable ids state blockA blockType mergeFn HA HT Hm).
    rewrite HB. simpl. rewrite Hc. reflexivity.
Qed.

End Merge.

Section Synchronisation.

Context `{Q : Selectors}.

Variable createBlock : string → gmap string Value → list Block → Block.
Variable getType : string → option BlockType.
Variable switchTo : Block → string → option (list Block).
Variable reducer : State → Action → State.

(** The functions of [@wordpress/blocks], with the template functions as
    they are described. *)
#[local] Abbreviation described := (blocksAPI createBlock getType switchTo).

Lemma synchronizeEntry_unfold (e : TemplateEntry)
    (existing : option Block) :
  synchronizeEntry createBlock e existing =
    let children bs :=
      synchronizeBlocksWithTemplate_spec createBlock bs (entry_inner e) in
    match existing with
    | Some b =>
        if decide (name b = entry_name e)
        then withInnerBlocks b (children (innerBlocks b))
        else createBlock (entry_name e) (entry_attributes e) (children [])
    | None => createBlock (entry_name e) (entry_attributes e) (children [])
    end.
Proof. destruct e as [n attrs [es|]]; reflexivity. Qed.

Lemma synchronizeEntries_length (es : Template) (bs : list Block) :
  length (synchronizeEntries createBlock es bs) = length es.
Proof.
  revert bs. induction es as [|e es IH]; intros bs; simpl.
  - reflexivity.
  - rewrite IH. reflexivity.
Qed.

Lemma synchronizeEntries_lookup (es : Template) (bs : list Block)
    (i : nat) (e : TemplateEntry) :
  es !! i = Some e →
  synchronizeEntries createBlock es bs !! i
    = Some (synchronizeEntry createBlock e (bs !! i)).
Proof.
  revert bs i. induction es as [|e' es IH]; intros bs i He.
  - discriminate.
  - destruct i as [|i]; simpl in *.
    + injection He as ->. destruct bs; reflexivity.
    + rewrite (IH (tail bs) i He). destruct bs; reflexivity.
Qed.

(** C9: the synchronisation handler always returns a reset action, and
    dispatches nothing itself.  The reset's block list is the
    reconciliation of the current blocks against the current template:
    with a template, one block per template entry, which is the block at
    that position with its children reconciled the same way when its
    type matches, and a new block of the entry's type otherwise, blocks
    beyond the template being dropped.  The returned action is of the
    type the validity effect is registered for, and dispatching the
    synchronisation runs that effect on the state the reset left. *)
Theorem synchronize_template_returns_reset (state : State) (fuel : nat) :
  let updated :=
    synchronizeBlocksWithTemplate_spec createBlock (getBlocks state)
      (getTemplate state) in
  SYNCHRONIZE_TEMPLATE (B := described) SynchronizeTemplate state
    = returns (Some (ResetBlocks updated))
  ∧ effects (B := described) (action_type (ResetBlocks updated))
      = [validateBlocksToTemplate (B := described)]
  ∧ (∀ tpl, getTemplate state = Some tpl →
       length updated = length tpl
       ∧ ∀ i e, tpl !! i = Some e →
           updated !! i = Some
             match getBlocks state !! i with
             | Some b =>
                 if decide (name b = entry_name e)
                 then withInnerBlocks b
                        (synchronizeBlocksWithTemplate_spec createBlock
                           (innerBlocks b) (entry_inner e))
                 else createBlock (entry_name e) (entry_attributes e)
                        (synchronizeBlocksWithTemplate_spec createBlock []
                           (entry_inner e))
             | None =>
                 createBlock (entry_name e) (entry_attributes e)
                   (synchronizeBlocksWithTemplate_spec createBlock []
                      (entry_inner e))
             end)
  ∧ (∀ s0, state = reducer s0 SynchronizeTemplate →
       let afterReset := reducer state (ResetBlocks updated) in
       let validity :=
         validateBlocksToTemplate (B := described) (ResetBlocks updated)
           afterReset in
       dispatch (B := described) reducer (S (S (S fuel)))
         SynchronizeTemplate s0 []
         = Finished (settle reducer validity afterReset)
             ([SynchronizeTemplate; ResetBlocks updated]
                ++ emitted validity)).
Proof.
  intros updated. split; [reflexivity|]. split; [reflexivity|]. split.
  - intros tpl Htpl. unfold updated. rewrite Htpl. simpl.
    split; [apply synchronizeEntries_length|].
    intros i e He. rewrite (synchronizeEntries_lookup tpl _ i e He).
    rewrite synchronizeEntry_unfold. reflexivity.
  - intros s0 Hs afterReset validity.
    rewrite (dispatch_single_returning reducer (S (S fuel))
               SynchronizeTemplate s0 [] SYNCHRONIZE_TEMPLATE
               (Some (ResetBlocks updated)) eq_refl).
    + rewrite <- Hs. apply (dispatch_reset_blocks (B := described)).
    + rewrite <- Hs. reflexivity.
Qed.

End Synchronisation.

(** ** The handlers on the reference store *)

Section OnReference.

Import Reference.

#[local] Existing Instance selectors.
#[local] Existing Instance api.

(** Removing [P2] from [[P1, P2, P3]] selects [P1] at its end. *)
Example remove_second_selects_first :
  selectPreviousBlock (RemoveBlocks ["P2"] (VBool true))
    (store [paragraph "P1"; paragraph "P3"] [threeParagraphs] None)
  = returns (Some (SelectBlock (Some "P1") (Some (-1)))).
Proof. reflexivity. Qed.

(** Removing the first block selects the container, here the document. *)
Example remove_first_selects_container :
  selectPreviousBlock (RemoveBlocks ["P1"] (VBool true))
    (store [paragraph "P2"; paragraph "P3"] [threeParagraphs] (Some "P2"))
  = returns (Some (SelectBlock (Some rootClientId) (Some (-1)))).
Proof. reflexivity. Qed.

(** Without a history entry to look the removed block up in, the handler
    throws. *)
Example remove_without_history_throws :
  selectPreviousBlock (RemoveBlocks ["P1"] (VBool true))
    (store [paragraph "P2"] [] None)
  = throws TypeError.
Proof. reflexivity. Qed.

(** Merging two blocks whose merge behaviour concatenates [text] leaves
    one block with the joined text, selected at the seam. *)
Example merge_hello_world :
  dispatch reducer 2 (MergeBlocks ["a"; "b"]) (store [hello; world] [] None)
    []
  = Finished
      (store [block "a" "x" {[ "text" := VStr "Hello World" ]}]
         [[hello; world]] (Some "a"))
      [ MergeBlocks ["a"; "b"];
        SelectBlock (Some "a") (Some (-1));
        ReplaceBlocks ["a"; "b"]
          [block "a" "x" {[ "text" := VStr "Hello World" ]}] ].
Proof. vm_compute. reflexivity. Qed.

(** Removing the only block brings the default block in. *)
Example remove_last_block_inserts_default :
  dispatch reducer 2 (RemoveBlocks ["a"] (VBool false))
    (store [hello] [] None) []
  = Finished (store [defaultBlock] [[hello]; []] None)
      [RemoveBlocks ["a"] (VBool false); InsertDefaultBlock].
Proof. vm_compute. reflexivity. Qed.

Lemma unlocked_template_always_valid_witness :
  let state :=
    templateStore [hello] [Entry "heading" ∅ None] (VStr "insert") false in
  isBlocksValidToTemplate (ResetBlocks [hello]) state = true
  ∧ validateBlocksToTemplate (ResetBlocks [hello]) state
      = returns (Some (SetTemplateValidity true)).
Proof.
  intros state.
  refine (unlocked_template_always_valid [hello] state _).
  right. simpl. discriminate.
Defined.

Lemma validity_emitted_iff_changed_witness :
  let state := templateStore [] [Entry "heading" ∅ None] (VStr "all") false in
  dispatch reducer 1 (ResetBlocks [hello]) state []
  = Finished (reducer state (ResetBlocks [hello])) [ResetBlocks [hello]].
Proof.
  intros state.
  apply (validity_emitted_iff_changed reducer (ResetBlocks [hello]) state
           [hello] 0).
  reflexivity.
Defined.

Lemma selectPreviousBlock_selects_sibling_or_container_witness :
  let state :=
    store [paragraph "P1"; paragraph "P3"] [threeParagraphs] None in
  selectPreviousBlock (RemoveBlocks ["P2"] (VBool true)) state
  = returns (Some (SelectBlock (Some "P1") (Some (-1)))).
Proof.
  intros state.
  destruct (selectPreviousBlock_selects_sibling_or_container
              ["P2"] (VBool true) state) as (_ & _ & Htruthy).
  destruct (Htruthy (Some rootClientId) (Some "P1")) as [[Hselect _] _].
  - reflexivity.
  - reflexivity.
  - reflexivity.
  - discriminate.
  - apply Hselect. discriminate.
Defined.

Lemma ensureDefaultBlock_keeps_document_nonempty_witness :
  let action := ReplaceBlocks ["a"] [] in
  let state := reducer (store [hello] [] None) action in
  emitted (ensureDefaultBlock action state) = [InsertDefaultBlock]
  ∧ (1 ≤ getBlockCount
           (settle reducer (ensureDefaultBlock action state) state))%nat.
Proof.
  intros action state.
  assert (Happends : ∀ s, getBlockCount (reducer s InsertDefaultBlock)
                          = S (getBlockCount s)).
  { intros s. simpl. rewrite length_app. simpl. lia. }
  destruct (ensureDefaultBlock_keeps_document_nonempty reducer Happends
              action state (or_intror eq_refl))
    as (_ & [_ Hemit] & _ & Hcount).
  split; [apply Hemit; reflexivity | exact Hcount].
Defined.

(** The merge result of a type whose merge behaviour yields [text] alone
    lacks the [align] attribute of the receiving block; the block the
    handler puts in the replacement list still has it. *)
Lemma merge_result_is_overlaid_counterexample :
  let merged := concatText (attributes aligned) (attributes world) in
  let kept : gmap string Value :=
    <[ "align" := VStr "left" ]> {[ "text" := VStr "Hello World" ]} in
  MERGE_BLOCKS (MergeBlocks ["a"; "b"]) (store [aligned; world] [] None)
    = {| dispatched :=
           [ SelectBlock (Some "a") (Some (-1));
             ReplaceBlocks ["a"; "b"] [block "a" "x" kept] ];
         outcome := Returned None |}
  ∧ merged = {[ "text" := VStr "Hello World" ]}
  ∧ kept !! "align" = Some (VStr "left")
  ∧ merged !! "align" = None
  ∧ kept ≠ merged.
Proof.
  intros merged kept.
  split; [reflexivity|]. split; [reflexivity|].
  split; [reflexivity|]. split; [reflexivity|].
  intros Heq. apply (f_equal (λ m : gmap string Value, m !! "align")) in Heq.
  vm_compute in Heq. discriminate Heq.
Qed.

Lemma merge_replaces_pair_with_overlay_witness :
  MERGE_BLOCKS (MergeBlocks ["a"; "q"]) (store [hello; cited] [] None)
    = {| dispatched :=
           [ SelectBlock (Some "a") (Some (-1));
             ReplaceBlocks ["a"; "q"]
               [ withAttributes hello
                   (concatText (attributes hello) (attributes cited)
                      ∪ attributes hello);
                 block "q-cite" "x" ∅ ] ];
         outcome := Returned None |}.
Proof.
  apply (merge_replaces_pair_with_overlay ["a"; "q"]
           (store [hello; cited] [] None) hello cited
           (block "q" "x" (attributes cited)) [block "q-cite" "x" ∅]
           {| merge := Some concatText |} concatText);
    reflexivity.
Defined.

(** A receiving block without merge behaviour is selected even when the
    second block has another type that cannot be transformed. *)
Lemma merge_incompatible_still_selects_counterexample :
  let state := store [picture; hello] [] None in
  getBlock state (Some "img") = Some picture
  ∧ getBlock state (Some "a") = Some hello
  ∧ name picture ≠ name hello
  ∧ switchToBlockType hello (name picture) = None
  ∧ MERGE_BLOCKS (MergeBlocks ["img"; "a"]) state
      = {| dispatched := [SelectBlock (Some "img") None];
           outcome := Returned None |}.
Proof.
  intros state. repeat split; try reflexivity. discriminate.
Qed.

Lemma merge_incompatible_types_is_noop_witness :
  let state := store [hello; picture] [] None in
  MERGE_BLOCKS (MergeBlocks ["a"; "img"]) state = returns None
  ∧ emitted (MERGE_BLOCKS (MergeBlocks ["a"; "img"]) state) = []
  ∧ settle reducer (MERGE_BLOCKS (MergeBlocks ["a"; "img"]) state) state
      = state.
Proof.
  intros state.
  refine (merge_incompatible_types_is_noop ["a"; "img"] state hello picture
            {| merge := Some concatText |} concatText reducer
            eq_refl eq_refl eq_refl eq_refl _ (or_introl eq_refl)).
  discriminate.
Defined.

Lemma merge_not_mergeable_only_selects_witness :
  let state := store [picture; hello] [] None in
  MERGE_BLOCKS (MergeBlocks ["img"; "a"]) state
    = {| dispatched := [SelectBlock (Some "img") None];
         outcome := Returned None |}.
Proof.
  intros state.
  refine (proj1 (merge_not_mergeable_only_selects ["img"; "a"] state picture
                   {| merge := None |} eq_refl eq_refl eq_refl)).
Defined.

Lemma merge_missing_second_block_throws_witness :
  let state := store [hello] [] None in
  dispatch reducer 1 (MergeBlocks ["a"; "gone"]) state []
    = Aborted state [MergeBlocks ["a"; "gone"]] TypeError.
Proof.
  intros state.
  refine (proj2 (proj2 (merge_missing_second_block_throws ["a"; "gone"] state
                          hello {| merge := Some concatText |} concatText
                          reducer 0 eq_refl eq_refl eq_refl eq_refl))).
Defined.

Lemma merge_paths_select_with_different_positions_witness :
  let state := store [hello; world] [] None in
  head (dispatched (MERGE_BLOCKS (MergeBlocks ["a"; "b"]) state))
    = Some (SelectBlock (Some "a") (Some (-1))).
Proof.
  intros state.
  refine (proj1 (proj2 (merge_paths_select_with_different_positions
                          ["a"; "b"] state hello {| merge := Some concatText |}
                          eq_refl eq_refl))
            concatText world world [] eq_refl eq_refl eq_refl).
Defined.

Lemma synchronize_template_returns_reset_witness :
  let tpl := [Entry "heading" ∅ None; Entry "paragraph" ∅ None] in
  let state := templateStore [paragraph "P1"] tpl (VStr "all") false in
  SYNCHRONIZE_TEMPLATE SynchronizeTemplate state
    = returns (Some (ResetBlocks [ createBlock "heading" ∅ [];
                                   createBlock "paragraph" ∅ [] ])).
Proof.
  intros tpl state.
  refine (proj1 (synchronize_template_returns_reset createBlock getType
                   switchTo reducer state 0)).
Defined.

End OnReference.

(** ** Further properties of the handlers *)

Section HandlerShapes.

Context `{Q : Selectors} `{B : BlocksAPI}.

(** The four ways the merge handler can end. *)
Lemma MERGE_BLOCKS_cases (action : Action) (state : State) :
  MERGE_BLOCKS action state = throws TypeError
  ∨ MERGE_BLOCKS action state = returns None
  ∨ (∃ blockA,
       MERGE_BLOCKS action state =
         {| dispatched := [SelectBlock (Some (clientId blockA)) None];
            outcome := Returned None |})
  ∨ (∃ blockA blockB updatedAttributes others,
       MERGE_BLOCKS action state =
         {| dispatched :=
              [ SelectBlock (Some (clientId blockA)) (Some (-1));
                ReplaceBlocks [clientId blockA; clientId blockB]
                  (mergedBlock blockA updatedAttributes :: others) ];
            outcome := Returned None |}).
Proof.
  unfold MERGE_BLOCKS, deref.
  destruct (action_mergeIds action) as [ids|]; [|left; reflexivity].
  destruct (getBlock state (ids !! 0%nat)) as [blockA|]; [|left; reflexivity].
  destruct (getBlockType (name blockA)) as [blockType|]; [|left; reflexivity].
  destruct (merge blockType) as [mergeFn|].
  - destruct (getBlock state (ids !! 1%nat)) as [blockB|];
      [|left; reflexivity].
    destruct (blocksWithTheSameType blockA blockB) as [[|candidate others]|].
    + right; left; reflexivity.
    + right; right; right.
      exists blockA, blockB,
        (mergeFn (attributes blockA) (attributes candidate)), others.
      reflexivity.
    + right; left; reflexivity.
  - right; right; left. exists blockA. reflexivity.
Qed.

(** The three ways the selection handler can end. *)
Lemma selectPreviousBlock_cases (action : Action) (state : State) :
  (∃ err, selectPreviousBlock action state = throws err)
  ∨ selectPreviousBlock action state = returns None
  ∨ (∃ target,
       target ≠ getSelectedBlockClientId state
       ∧ selectPreviousBlock action state
           = returns (Some (SelectBlock target (Some (-1))))).
Proof.
  unfold selectPreviousBlock, deref, try.
  destruct (negb (truthy (action_selectPrevious action)));
    [right; left; reflexivity|].
  destruct (action_clientIds action) as [ids|]; [|left; eauto].
  destruct (blockClientIdToSelect state (ids !! 0%nat)) as [target|err];
    [|left; eauto].
  destruct (decide (target ≠ getSelectedBlockClientId state)) as [Hne|He].
  - right; right. exists target. split; [exact Hne|reflexivity].
  - right; left; reflexivity.
Qed.

(** X1: whatever the action and the state, the merge handler never returns
    an action and dispatches all or nothing: it dispatches nothing, or one
    select-block action without position, or a select-block action with
    offset [-1] followed by one replace action whose first id and whose
    first new block carry the client id just selected.  When it throws, it
    has dispatched nothing. *)
Theorem merge_dispatches_all_or_nothing (action : Action) (state : State) :
  let e := MERGE_BLOCKS action state in
  (outcome e = Returned None ∨ (outcome e = Threw TypeError ∧ dispatched e = []))
  ∧ (dispatched e = []
     ∨ (∃ a, dispatched e = [SelectBlock (Some a) None])
     ∨ (∃ a b first others,
          dispatched e =
            [ SelectBlock (Some a) (Some (-1));
              ReplaceBlocks [a; b] (first :: others) ]
          ∧ clientId first = a)).
Proof.
  intros e. unfold e.
  destruct (MERGE_BLOCKS_cases action state)
    as [-> | [-> | [[blockA ->] | (blockA & blockB & upd & others & ->)]]];
    simpl.
  - split; [right; split; reflexivity | left; reflexivity].
  - split; [left; reflexivity | left; reflexivity].
  - split; [left; reflexivity|]. right; left. eauto.
  - split; [left; reflexivity|]. right; right.
    exists (clientId blockA), (clientId blockB),
      (mergedBlock blockA upd), others.
    split; reflexivity.
Qed.

(** X3: when the first id does not resolve to a block, or the block's type
    is not registered, the merge handler throws a [TypeError] before it
    looks at the second id and before any dispatch. *)
Theorem merge_unresolved_receiver_throws (ids : list string)
    (state : State) :
  getBlock state (ids !! 0%nat) = None
  ∨ (∃ blockA, getBlock state (ids !! 0%nat) = Some blockA
               ∧ getBlockType (name blockA) = None) →
  MERGE_BLOCKS (MergeBlocks ids) state = throws TypeError
  ∧ emitted (MERGE_BLOCKS (MergeBlocks ids) state) = [].
Proof.
  intros H.
  assert (Hr : MERGE_BLOCKS (MergeBlocks ids) state = throws TypeError).
  { unfold MERGE_BLOCKS. simpl.
    destruct H as [-> | (blockA & -> & HT)]; [reflexivity|].
    simpl. rewrite HT. reflexivity. }
  rewrite Hr. split; reflexivity.
Qed.

(** X5: whatever the action and the state, the selection handler
    dispatches nothing itself, and an action it returns is a select-block
    action with offset [-1] whose target is not the block that is selected
    already. *)
Theorem selectPreviousBlock_never_reselects (action : Action)
    (state : State) :
  dispatched (selectPreviousBlock action state) = []
  ∧ (∀ a, a ∈ emitted (selectPreviousBlock action state) →
       ∃ target, a = SelectBlock target (Some (-1))
                 ∧ target ≠ getSelectedBlockClientId state).
Proof.
  destruct (selectPreviousBlock_cases action state)
    as [[err ->] | [-> | (target & Hne & ->)]]; (split; [reflexivity|]);
    intros a Ha; unfold emitted in Ha; simpl in Ha.
  - apply elem_of_nil in Ha. contradiction.
  - apply elem_of_nil in Ha. contradiction.
  - apply list_elem_of_singleton in Ha. subst a. eauto.
Qed.

(** X6: the selection handler reads the removal's flag, its first client
    id, the selected block and the state rebuilt from the last history
    entry, and nothing else: the other removed ids, the present document
    and the older history entries do not matter. *)
Theorem selectPreviousBlock_reads_previous_state_only
    (ids1 ids2 : list string) (flag1 flag2 : Value) (s1 s2 : State) :
  truthy flag1 = truthy flag2 →
  ids1 !! 0%nat = ids2 !! 0%nat →
  previousState s1 = previousState s2 →
  getSelectedBlockClientId s1 = getSelectedBlockClientId s2 →
  selectPreviousBlock (RemoveBlocks ids1 flag1) s1
    = selectPreviousBlock (RemoveBlocks ids2 flag2) s2.
Proof.
  intros Hflag Hid Hprev Hsel.
  unfold selectPreviousBlock, blockClientIdToSelect. simpl.
  rewrite Hflag, Hid, Hprev, Hsel. reflexivity.
Qed.

(** X7: a previous-sibling id that is [null] or the empty string counts as
    no sibling: with a truthy flag the handler then targets the container
    of the removed block, also when that container is [null]. *)
Theorem selectPreviousBlock_empty_sibling_selects_container
    (ids : list string) (flag : Value) (state : State)
    (container sibling : option string) :
  truthy flag = true →
  getBlockRootClientId (previousState state) (ids !! 0%nat) = Ok container →
  getPreviousBlockClientId (previousState state) (ids !! 0%nat)
    = Ok sibling →
  sibling = None ∨ sibling = Some "" →
  selectPreviousBlock (RemoveBlocks ids flag) state =
    if decide (container = getSelectedBlockClientId state)
    then returns None
    else returns (Some (SelectBlock container (Some (-1)))).
Proof.
  intros Hflag Hroot Hprev Hsib.
  unfold selectPreviousBlock, blockClientIdToSelect. simpl.
  rewrite Hflag, Hroot, Hprev. simpl.
  assert (Ht : or_else sibling container = container).
  { destruct Hsib as [-> | ->]; reflexivity. }
  rewrite Ht.
  destruct (decide (container = getSelectedBlockClientId state)) as [He|Hne].
  - rewrite decide_False by (intros Hc; exact (Hc He)). reflexivity.
  - rewrite decide_True by exact Hne. reflexivity.
Qed.

(** X9: the validity handler dispatches nothing itself, and a set-validity
    action it returns always carries the opposite of the cached flag: the
    effect can only flip the flag, to the validity it computed. *)
Theorem validity_only_flips_flag (action : Action) (state : State) :
  dispatched (validateBlocksToTemplate action state) = []
  ∧ (∀ a, a ∈ emitted (validateBlocksToTemplate action state) →
       a = SetTemplateValidity (negb (isValidTemplate state))
       ∧ isBlocksValidToTemplate action state
           = negb (isValidTemplate state)).
Proof.
  split.
  - unfold validateBlocksToTemplate.
    destruct (decide (_ ≠ _)); reflexivity.
  - intros a Ha. rewrite validateBlocksToTemplate_emitted in Ha.
    destruct (decide (isBlocksValidToTemplate action state
                      = isValidTemplate state)) as [He|Hne].
    + apply elem_of_nil in Ha. contradiction.
    + apply list_elem_of_singleton in Ha. subst a.
      destruct (isBlocksValidToTemplate action state),
        (isValidTemplate state); try (contradiction Hne; reflexivity);
        split; reflexivity.
Qed.

(** X11: an action emitted by a registered handler has no handlers of its
    own, except the replace action of a merge and the reset action of a
    template synchronisation; as neither of these is a merge or a
    synchronisation, the actions their handlers emit have no handlers:
    chains of effects are at most three actions deep. *)
Theorem handlers_emit_short_chains (action emittedAction : Action)
    (state : State) (handler : Action → State → Effect) :
  handler ∈ effects (action_type action) →
  emittedAction ∈ emitted (handler action state) →
  effects (action_type emittedAction) = []
  ∨ (action_type action = "MERGE_BLOCKS"
     ∧ action_type emittedAction = "REPLACE_BLOCKS")
  ∨ (action_type action = "SYNCHRONIZE_TEMPLATE"
     ∧ action_type emittedAction = "RESET_BLOCKS").
Proof.
  intros Hh Ha.
  destruct action; simpl in Hh;
    repeat (apply elem_of_cons in Hh as [-> | Hh]);
    try (apply elem_of_nil in Hh; contradiction).
  - rewrite validateBlocksToTemplate_emitted in Ha.
    destruct (decide _); [apply elem_of_nil in Ha; contradiction|].
    apply list_elem_of_singleton in Ha. subst. left. reflexivity.
  - destruct (selectPreviousBlock_cases (RemoveBlocks clientIds selectPrevious)
                state) as [[err Hr] | [Hr | (target & _ & Hr)]];
      rewrite Hr in Ha; unfold emitted in Ha; simpl in Ha.
    + apply elem_of_nil in Ha. contradiction.
    + apply elem_of_nil in Ha. contradiction.
    + apply list_elem_of_singleton in Ha. subst. left. reflexivity.
  - unfold ensureDefaultBlock in Ha. destruct (decide _);
      unfold emitted in Ha; simpl in Ha;
      [|apply elem_of_nil in Ha; contradiction].
    apply list_elem_of_singleton in Ha. subst. left. reflexivity.
  - unfold ensureDefaultBlock in Ha. destruct (decide _);
      unfold emitted in Ha; simpl in Ha;
      [|apply elem_of_nil in Ha; contradiction].
    apply list_elem_of_singleton in Ha. subst. left. reflexivity.
  - destruct (MERGE_BLOCKS_cases (MergeBlocks blocks) state)
      as [Hr | [Hr | [[blockA Hr] | (blockA & blockB & upd & others & Hr)]]];
      rewrite Hr in Ha; unfold emitted in Ha; simpl in Ha.
    + apply elem_of_nil in Ha. contradiction.
    + apply elem_of_nil in Ha. contradiction.
    + apply list_elem_of_singleton in Ha. subst. left. reflexivity.
    + apply elem_of_cons in Ha as [-> | Ha]; [left; reflexivity|].
      apply list_elem_of_singleton in Ha. subst.
      right; left. split; reflexivity.
  - unfold emitted in Ha. simpl in Ha. apply elem_of_nil in Ha. contradiction.
  - unfold emitted in Ha. simpl in Ha.
    apply list_elem_of_singleton in Ha. subst.
    right; right. split; reflexivity.
Qed.

End HandlerShapes.

Section TransformIndependence.

Context `{Q : Selectors}.

Variables B1 B2 : BlocksAPI.

(** X2: when the two blocks have the same type, the merge handler does not
    consult [switchToBlockType]: two registries that agree on the block
    types give the same result whatever their transforms are, and a
    replace action it dispatches puts exactly one block in place of the
    pair. *)
Theorem merge_same_type_ignores_transform (ids : list string)
    (state : State) (blockA blockB : Block) :
  (∀ n, getBlockType (BlocksAPI := B1) n = getBlockType (BlocksAPI := B2) n) →
  getBlock state (ids !! 0%nat) = Some blockA →
  getBlock state (ids !! 1%nat) = Some blockB →
  name blockA = name blockB →
  MERGE_BLOCKS (B := B1) (MergeBlocks ids) state
    = MERGE_BLOCKS (B := B2) (MergeBlocks ids) state
  ∧ (∀ replaced blocks,
       ReplaceBlocks replaced blocks
         ∈ dispatched (MERGE_BLOCKS (B := B1) (MergeBlocks ids) state) →
       replaced = [clientId blockA; clientId blockB]
       ∧ ∃ first, blocks = [first]).
Proof.
  intros HT HA HB Hname.
  unfold MERGE_BLOCKS, blocksWithTheSameType. simpl.
  rewrite HA. simpl. rewrite <- HT.
  destruct (getBlockType (BlocksAPI := B1) (name blockA)) as [blockType|];
    simpl.
  - destruct (merge blockType) as [mergeFn|].
    + rewrite HB. simpl. rewrite !decide_True by exact Hname.
      split; [reflexivity|]. intros replaced blocks Hin. simpl in Hin.
      apply elem_of_cons in Hin as [Hin | Hin]; [discriminate|].
      apply list_elem_of_singleton in Hin. injection Hin as -> ->.
      split; [reflexivity|]. eauto.
    + split; [reflexivity|]. intros replaced blocks Hin. simpl in Hin.
      apply list_elem_of_singleton in Hin. discriminate.
  - split; [reflexivity|]. intros replaced blocks Hin. simpl in Hin.
    apply elem_of_nil in Hin. contradiction.
Qed.

End TransformIndependence.

Section Chains.

Context `{Q : Selectors} `{B : BlocksAPI}.

Variable reducer : State → Action → State.

(** More fuel does not change a dispatch that ended. *)
Lemma dispatchAll_mono
    (d d' : Action → State → list Action → Run) (actions : list Action) :
  (∀ a s log r, d a s log = r → r ≠ OutOfFuel → d' a s log = r) →
  ∀ s log r, dispatchAll d actions s log = r → r ≠ OutOfFuel →
             dispatchAll d' actions s log = r.
Proof.
  intros Hd. induction actions as [|a rest IH]; intros s log r Hr Hne; simpl in *.
  - exact Hr.
  - destruct (d a s log) as [s' log'| s' log' err|] eqn:Ha.
    + rewrite (Hd _ _ _ _ Ha) by discriminate. apply IH; assumption.
    + rewrite (Hd _ _ _ _ Ha) by discriminate. exact Hr.
    + subst r. contradiction Hne. reflexivity.
Qed.

Lemma runHandlers_mono
    (d d' : Action → State → list Action → Run)
    (handlers : list (Action → State → Effect)) (action : Action) :
  (∀ a s log r, d a s log = r → r ≠ OutOfFuel → d' a s log = r) →
  ∀ s log r, runHandlers d handlers action s log = r → r ≠ OutOfFuel →
             runHandlers d' handlers action s log = r.
Proof.
  intros Hd. induction handlers as [|h rest IH]; intros s log r Hr Hne;
    simpl in *.
  - exact Hr.
  - destruct (dispatchAll d (dispatched (h action s)) s log)
      as [s1 log1| s1 log1 err|] eqn:Hall.
    + rewrite (dispatchAll_mono d d' _ Hd _ _ _ Hall) by discriminate.
      destruct (outcome (h action s)) as [[a|]|err].
      * destruct (d a s1 log1) as [s2 log2| s2 log2 err|] eqn:Ha.
        -- rewrite (Hd _ _ _ _ Ha) by discriminate. apply IH; assumption.
        -- rewrite (Hd _ _ _ _ Ha) by discriminate. exact Hr.
        -- subst r. contradiction Hne. reflexivity.
      * apply IH; assumption.
      * exact Hr.
    + rewrite (dispatchAll_mono d d' _ Hd _ _ _ Hall) by discriminate.
      exact Hr.
    + subst r. contradiction Hne. reflexivity.
Qed.

Lemma dispatch_mono (fuel : nat) :
  ∀ a s log r, dispatch reducer fuel a s log = r → r ≠ OutOfFuel →
               dispatch reducer (S fuel) a s log = r.
Proof.
  induction fuel as [|fuel IH]; intros a s log r Hr Hne.
  - simpl in Hr. subst r. contradiction Hne. reflexivity.
  - change (runHandlers (dispatch reducer (S fuel))
              (effects (action_type a)) a (reducer s a) (log ++ [a]) = r).
    change (runHandlers (dispatch reducer fuel)
              (effects (action_type a)) a (reducer s a) (log ++ [a]) = r)
      in Hr.
    exact (runHandlers_mono _ _ _ _ IH _ _ _ Hr Hne).
Qed.

Lemma dispatch_mono_add (fuel more : nat) (a : Action) (s : State)
    (log : list Action) :
  dispatch reducer fuel a s log ≠ OutOfFuel →
  dispatch reducer (more + fuel) a s log = dispatch reducer fuel a s log.
Proof.
  intros Hne. induction more as [|more IH]; [reflexivity|].
  change (S more + fuel)%nat with (S (more + fuel)).
  apply dispatch_mono; [exact IH|exact Hne].
Qed.

(** The chain a replacement starts: the default-content effect runs on the
    state the replacement left, and what it emits is applied. *)
Lemma dispatch_replace_blocks (fuel : nat) (ids : list string)
    (blocks : list Block) (s : State) (log : list Action) :
  let a := ReplaceBlocks ids blocks in
  let s' := reducer s a in
  let e := ensureDefaultBlock a s' in
  dispatch reducer (S (S fuel)) a s log
    = Finished (settle reducer e s') ((log ++ [a]) ++ emitted e).
Proof.
  intros a s' e.
  destruct (decide (getBlockCount s' = 0%nat)) as [Hz|Hnz].
  - assert (Hr : e = returns (Some InsertDefaultBlock)).
    { unfold e, ensureDefaultBlock. rewrite decide_True by exact Hz.
      reflexivity. }
    rewrite (dispatch_single_returning reducer (S fuel) a s log
               ensureDefaultBlock _ eq_refl Hr).
    rewrite dispatch_no_handlers by reflexivity.
    rewrite Hr. reflexivity.
  - assert (Hr : e = returns None).
    { unfold e, ensureDefaultBlock. rewrite decide_False by exact Hnz.
      reflexivity. }
    rewrite (dispatch_single_returning reducer (S fuel) a s log
               ensureDefaultBlock _ eq_refl Hr).
    rewrite Hr. unfold settle, emitted. simpl. rewrite app_nil_r.
    reflexivity.
Qed.

(** One handler that ran to its end, followed by the default-content
    handler. *)
Lemma runHandlers_then_ensureDefaultBlock (fuel : nat) (a : Action)
    (s : State) (log : list Action) :
  runHandlers (dispatch reducer (S fuel)) [ensureDefaultBlock] a s log
    = Finished (settle reducer (ensureDefaultBlock a s) s)
        (log ++ emitted (ensureDefaultBlock a s)).
Proof.
  cbn [runHandlers]. unfold ensureDefaultBlock.
  destruct (decide (getBlockCount s = 0%nat)); cbn [dispatched returns
    outcome dispatchAll].
  - rewrite dispatch_no_handlers by reflexivity. reflexivity.
  - unfold settle, emitted. simpl. rewrite app_nil_r. reflexivity.
Qed.

(** The chain a removal starts. *)
Lemma dispatch_remove_blocks (fuel : nat) (ids : list string) (flag : Value)
    (s : State) (log : list Action) :
  let a := RemoveBlocks ids flag in
  let s1 := reducer s a in
  let e1 := selectPreviousBlock a s1 in
  let s2 := settle reducer e1 s1 in
  let e2 := ensureDefaultBlock a s2 in
  dispatch reducer (S (S fuel)) a s log =
    match outcome e1 with
    | Threw err => Aborted s1 (log ++ [a]) err
    | Returned _ =>
        Finished (settle reducer e2 s2)
          (((log ++ [a]) ++ emitted e1) ++ emitted e2)
    end.
Proof.
  intros a s1 e1 s2 e2.
  change (dispatch reducer (S (S fuel)) a s log)
    with (runHandlers (dispatch reducer (S fuel))
            [selectPreviousBlock; ensureDefaultBlock] a s1 (log ++ [a])).
  cbn [runHandlers]. fold e1.
  destruct (selectPreviousBlock_cases a s1)
    as [[err Hr] | [Hr | (target & _ & Hr)]]; fold e1 in Hr.
  - rewrite Hr. reflexivity.
  - unfold e2, s2. rewrite Hr. cbn [dispatched returns outcome dispatchAll].
    fold (runHandlers (dispatch reducer (S fuel)) [ensureDefaultBlock]
            a s1 (log ++ [a])).
    rewrite runHandlers_then_ensureDefaultBlock.
    unfold settle at 2 3. unfold emitted at 3 4. simpl.
    rewrite app_nil_r. reflexivity.
  - unfold e2, s2. rewrite Hr. cbn [dispatched returns outcome dispatchAll].
    rewrite dispatch_no_handlers by reflexivity.
    fold (runHandlers (dispatch reducer (S fuel)) [ensureDefaultBlock] a
            (reducer s1 (SelectBlock target (Some (-1))))
            ((log ++ [a]) ++ [SelectBlock target (Some (-1))])).
    rewrite runHandlers_then_ensureDefaultBlock. reflexivity.
Qed.

(** The chain of a merge whose handler dispatched a selection and a
    replacement. *)
Lemma dispatch_merge_replacing (fuel : nat) (ids replaced : list string)
    (blocks : list Block) (target : option string) (position : option Z)
    (s : State) (log : list Action) :
  let a := MergeBlocks ids in
  let select := SelectBlock target position in
  let replace := ReplaceBlocks replaced blocks in
  let s1 := reducer s a in
  let s3 := reducer (reducer s1 select) replace in
  let e3 := ensureDefaultBlock replace s3 in
  MERGE_BLOCKS a s1
    = {| dispatched := [select; replace]; outcome := Returned None |} →
  dispatch reducer (S (S (S fuel))) a s log
    = Finished (settle reducer e3 s3)
        ((log ++ [a; select; replace]) ++ emitted e3).
Proof.
  intros a select replace s1 s3 e3 Hr.
  change (dispatch reducer (S (S (S fuel))) a s log)
    with (runHandlers (dispatch reducer (S (S fuel))) [MERGE_BLOCKS] a s1
            (log ++ [a])).
  cbn [runHandlers]. rewrite Hr. cbn [dispatched outcome dispatchAll].
  rewrite dispatch_no_handlers by reflexivity.
  rewrite (dispatch_replace_blocks fuel replaced blocks).
  fold replace s3 e3. f_equal. rewrite <- !app_assoc. reflexivity.
Qed.

Lemma dispatch_three_ends (a : Action) (s : State) (log : list Action) :
  dispatch reducer 3 a s log ≠ OutOfFuel.
Proof.
  destruct a.
  - rewrite (dispatch_reset_blocks reducer 1). discriminate.
  - rewrite (dispatch_remove_blocks 1). destruct (outcome _); discriminate.
  - rewrite (dispatch_replace_blocks 1). discriminate.
  - change (dispatch reducer 3 (MergeBlocks blocks) s log)
      with (runHandlers (dispatch reducer 2) [MERGE_BLOCKS]
              (MergeBlocks blocks) (reducer s (MergeBlocks blocks))
              (log ++ [MergeBlocks blocks])).
    cbn [runHandlers].
    destruct (MERGE_BLOCKS_cases (MergeBlocks blocks)
                (reducer s (MergeBlocks blocks)))
      as [Hr | [Hr | [[blockA Hr] | (blockA & blockB & upd & others & Hr)]]];
      rewrite Hr; cbn [dispatched outcome dispatchAll returns throws].
    + discriminate.
    + discriminate.
    + rewrite (dispatch_no_handlers reducer 1) by reflexivity. discriminate.
    + rewrite (dispatch_no_handlers reducer 1) by reflexivity.
      rewrite (dispatch_replace_blocks 0). discriminate.
  - rewrite (dispatch_single_returning reducer 2 (MultiSelect start finish)
               s log MULTI_SELECT None eq_refl eq_refl). discriminate.
  - rewrite (dispatch_single_returning reducer 2 SynchronizeTemplate s log
               SYNCHRONIZE_TEMPLATE _ eq_refl eq_refl).
    unfold resetBlocks. rewrite (dispatch_reset_blocks reducer 0).
    discriminate.
  - rewrite (dispatch_no_handlers reducer 2) by reflexivity. discriminate.
  - rewrite (dispatch_no_handlers reducer 2) by reflexivity. discriminate.
  - rewrite (dispatch_no_handlers reducer 2) by reflexivity. discriminate.
Qed.

(** X4: when the merge handler finds a mergeable receiving block A, a
    second block B and at least one candidate, dispatching the merge
    action makes the merge, the selection of A and the replacement go
    through the store in this order; the default-content effect then runs
    on the state the replacement left, and what it emits ends the chain. *)
Theorem merge_chain_selects_then_replaces (fuel : nat) (ids : list string)
    (state : State) (log : list Action) (blockA blockB candidate : Block)
    (others : list Block) (blockType : BlockType)
    (mergeFn : gmap string Value → gmap string Value → gmap string Value) :
  let reached := reducer state (MergeBlocks ids) in
  let select := SelectBlock (Some (clientId blockA)) (Some (-1)) in
  let replace :=
    ReplaceBlocks [clientId blockA; clientId blockB]
      (mergedBlock blockA (mergeFn (attributes blockA) (attributes candidate))
       :: others) in
  let replaced := reducer (reducer reached select) replace in
  let ensured := ensureDefaultBlock replace replaced in
  getBlock reached (ids !! 0%nat) = Some blockA →
  getBlockType (name blockA) = Some blockType →
  merge blockType = Some mergeFn →
  getBlock reached (ids !! 1%nat) = Some blockB →
  blocksWithTheSameType blockA blockB = Some (candidate :: others) →
  dispatch reducer (S (S (S fuel))) (MergeBlocks ids) state log
    = Finished (settle reducer ensured replaced)
        ((log ++ [MergeBlocks ids; select; replace]) ++ emitted ensured).
Proof.
  intros reached select replace replaced ensured HA HT Hm HB Hc.
  apply dispatch_merge_replacing. fold reached.
  rewrite (MERGE_BLOCKS_mergeable ids reached blockA blockType mergeFn HA HT Hm).
  rewrite HB. simpl. rewrite Hc. reflexivity.
Qed.

(** X8: dispatching a removal runs the selection handler first.  When it
    throws, the chain is aborted in the state the removal left: the
    default-content handler does not run.  Otherwise the select action it
    returned, if any, is applied, the default-content handler runs on the
    resulting state, and what that handler emits ends the chain. *)
Theorem remove_chain_selects_then_ensures (fuel : nat) (ids : list string)
    (flag : Value) (state : State) (log : list Action) :
  let a := RemoveBlocks ids flag in
  let reached := reducer state a in
  (∀ err, selectPreviousBlock a reached = throws err →
     dispatch reducer (S (S fuel)) a state log
       = Aborted reached (log ++ [a]) err)
  ∧ (∀ r, selectPreviousBlock a reached = returns r →
       let selected := foldl reducer reached (option_list r) in
       let ensured := ensureDefaultBlock a selected in
       dispatch reducer (S (S fuel)) a state log
         = Finished (settle reducer ensured selected)
             (((log ++ [a]) ++ option_list r) ++ emitted ensured)).
Proof.
  intros a reached. split.
  - intros err Hr. rewrite (dispatch_remove_blocks fuel ids flag).
    fold a reached. rewrite Hr. reflexivity.
  - intros r Hr selected ensured.
    rewrite (dispatch_remove_blocks fuel ids flag).
    fold a reached. unfold ensured, selected. rewrite Hr.
    destruct r; reflexivity.
Qed.

(** X10: with a reducer that stores the flag of a set-validity action and
    leaves the template and its lock alone, the validity handler settles
    in one step: run again on the state its own action left, for the same
    reset, it returns nothing. *)
Theorem validity_settles_after_one_run (action : Action) (state : State) :
  (∀ s v, isValidTemplate (reducer s (SetTemplateValidity v)) = v) →
  (∀ s v, getTemplate (reducer s (SetTemplateValidity v)) = getTemplate s) →
  (∀ s v, getTemplateLock (reducer s (SetTemplateValidity v))
          = getTemplateLock s) →
  validateBlocksToTemplate action
    (settle reducer (validateBlocksToTemplate action state) state)
    = returns None.
Proof.
  intros Hflag Htpl Hlock.
  unfold settle. rewrite validateBlocksToTemplate_emitted.
  destruct (decide (isBlocksValidToTemplate action state
                    = isValidTemplate state)) as [He|Hne]; simpl.
  - unfold validateBlocksToTemplate.
    rewrite decide_False by (intros Hc; exact (Hc He)). reflexivity.
  - unfold validateBlocksToTemplate.
    assert (Hsame : isBlocksValidToTemplate action
                      (reducer state (SetTemplateValidity
                         (isBlocksValidToTemplate action state)))
                    = isBlocksValidToTemplate action state).
    { unfold isBlocksValidToTemplate at 1 3. rewrite Htpl, Hlock.
      reflexivity. }
    rewrite Hsame, Hflag.
    rewrite decide_False by (intros Hc; apply Hc; reflexivity). reflexivity.
Qed.

(** X12: whatever the action, the state, the selectors, the block types
    and the reducer, a dispatch with fuel 3 ends, finished or aborted by an
    exception, and more fuel gives the same result: no chain of effects
    is deeper than three actions. *)
Theorem dispatch_fuel_three_suffices (more : nat) (a : Action) (s : State)
    (log : list Action) :
  dispatch reducer (more + 3) a s log = dispatch reducer 3 a s log
  ∧ dispatch reducer 3 a s log ≠ OutOfFuel.
Proof.
  split; [|apply dispatch_three_ends].
  apply dispatch_mono_add. apply dispatch_three_ends.
Qed.

End Chains.

Section Frames.

Context `{Q : Selectors} `{B : BlocksAPI}.

(** X13: the merge handler reads the first two ids of the action and the
    two blocks they resolve to, and nothing else of the action or the
    state: further ids in the action are ignored, and two states that
    resolve the two ids alike give the same result. *)
Theorem merge_reads_two_blocks_only (ids1 ids2 : list string)
    (s1 s2 : State) :
  ids1 !! 0%nat = ids2 !! 0%nat →
  ids1 !! 1%nat = ids2 !! 1%nat →
  getBlock s1 (ids1 !! 0%nat) = getBlock s2 (ids1 !! 0%nat) →
  getBlock s1 (ids1 !! 1%nat) = getBlock s2 (ids1 !! 1%nat) →
  MERGE_BLOCKS (MergeBlocks ids1) s1 = MERGE_BLOCKS (MergeBlocks ids2) s2.
Proof.
  intros H0 H1 HA HB. unfold MERGE_BLOCKS. simpl.
  rewrite <- H0, <- H1, HA, HB. reflexivity.
Qed.

(** X14: the validity handler takes the blocks from the action and reads
    the template, its lock and the cached flag from the state, and nothing
    else: two states that agree on these three give the same result for
    the same action, whatever document they hold. *)
Theorem validity_reads_template_and_flag_only (action : Action)
    (s1 s2 : State) :
  getTemplate s1 = getTemplate s2 →
  getTemplateLock s1 = getTemplateLock s2 →
  isValidTemplate s1 = isValidTemplate s2 →
  validateBlocksToTemplate action s1 = validateBlocksToTemplate action s2.
Proof.
  intros Htpl Hlock Hflag.
  unfold validateBlocksToTemplate, isBlocksValidToTemplate.
  rewrite Htpl, Hlock, Hflag. reflexivity.
Qed.

End Frames.

(** ** Further runs on the reference store *)

Section FurtherOnReference.

Import Reference.

#[local] Existing Instance selectors.
#[local] Existing Instance api.

(** A synchronisation whose reset changes the validity needs all three
    levels of the chain. *)
Example synchronize_chain_is_three_deep :
  let state := templateStore [] [Entry "heading" ∅ None] (VStr "all") false in
  dispatch reducer 2 SynchronizeTemplate state [] = OutOfFuel
  ∧ dispatch reducer 3 SynchronizeTemplate state []
    = Finished
        {| editor := {| present := Some [createBlock "heading" ∅ []];
                        past := [[]] |};
           selection := None; template := Some [Entry "heading" ∅ None];
           templateLock := VStr "all"; isValidToTemplate := true |}
        [ SynchronizeTemplate;
          ResetBlocks [createBlock "heading" ∅ []];
          SetTemplateValidity true ].
Proof. split; vm_compute; reflexivity. Qed.

Lemma merge_same_type_ignores_transform_witness :
  let state := store [hello; world] [] None in
  MERGE_BLOCKS (B := api) (MergeBlocks ["a"; "b"]) state
    = MERGE_BLOCKS (B := blocksAPI createBlock getType (λ _ _, Some []))
        (MergeBlocks ["a"; "b"]) state.
Proof.
  intros state.
  refine (proj1 (merge_same_type_ignores_transform api
                   (blocksAPI createBlock getType (λ _ _, Some []))
                   ["a"; "b"] state hello world
                   (λ n, eq_refl) eq_refl eq_refl eq_refl)).
Defined.

Lemma merge_unresolved_receiver_throws_witness :
  let state := store [hello] [] None in
  MERGE_BLOCKS (MergeBlocks []) state = throws TypeError
  ∧ emitted (MERGE_BLOCKS (MergeBlocks []) state) = [].
Proof.
  intros state.
  refine (merge_unresolved_receiver_throws [] state (or_introl eq_refl)).
Defined.

Lemma merge_chain_selects_then_replaces_witness :
  dispatch reducer 3 (MergeBlocks ["a"; "b"]) (store [hello; world] [] None)
    []
  = Finished
      (store [block "a" "x" {[ "text" := VStr "Hello World" ]}]
         [[hello; world]] (Some "a"))
      [ MergeBlocks ["a"; "b"];
        SelectBlock (Some "a") (Some (-1));
        ReplaceBlocks ["a"; "b"]
          [block "a" "x" {[ "text" := VStr "Hello World" ]}] ].
Proof.
  refine (merge_chain_selects_then_replaces reducer 0 ["a"; "b"]
            (store [hello; world] [] None) [] hello world world []
            {| merge := Some concatText |} concatText
            eq_refl eq_refl eq_refl eq_refl eq_refl).
Defined.

Lemma selectPreviousBlock_reads_previous_state_only_witness :
  selectPreviousBlock (RemoveBlocks ["P2"] (VBool true))
    (store [paragraph "P1"; paragraph "P3"] [threeParagraphs] None)
  = selectPreviousBlock (RemoveBlocks ["P2"; "P3"] (VStr "yes"))
      (store [hello] [[world]; threeParagraphs] None).
Proof.
  refine (selectPreviousBlock_reads_previous_state_only
            ["P2"] ["P2"; "P3"] (VBool true) (VStr "yes")
            (store [paragraph "P1"; paragraph "P3"] [threeParagraphs] None)
            (store [hello] [[world]; threeParagraphs] None)
            eq_refl eq_refl eq_refl eq_refl).
Defined.

Lemma selectPreviousBlock_empty_sibling_selects_container_witness :
  let group :=
    mkBlock "C" "group" ∅ [block "" "x" ∅; paragraph "P2"] in
  selectPreviousBlock (RemoveBlocks ["P2"] (VBool true))
    (store [] [[group]] None)
  = returns (Some (SelectBlock (Some "C") (Some (-1)))).
Proof.
  intros group.
  refine (selectPreviousBlock_empty_sibling_selects_container
            ["P2"] (VBool true) (store [] [[group]] None)
            (Some "C") (Some "") eq_refl eq_refl eq_refl
            (or_intror eq_refl)).
Defined.

Lemma remove_chain_selects_then_ensures_witness :
  dispatch reducer 2 (RemoveBlocks ["P2"] (VBool true))
    (store threeParagraphs [] None) []
  = Finished
      (store [paragraph "P1"; paragraph "P3"] [threeParagraphs] (Some "P1"))
      [ RemoveBlocks ["P2"] (VBool true);
        SelectBlock (Some "P1") (Some (-1)) ].
Proof.
  refine (proj2 (remove_chain_selects_then_ensures reducer 0 ["P2"]
                   (VBool true) (store threeParagraphs [] None) [])
            (Some (SelectBlock (Some "P1") (Some (-1)))) eq_refl).
Defined.

Lemma validity_settles_after_one_run_witness :
  let state :=
    templateStore [hello] [Entry "heading" ∅ None] (VStr "all") true in
  emitted (validateBlocksToTemplate (ResetBlocks [hello]) state)
    = [SetTemplateValidity false]
  ∧ validateBlocksToTemplate (ResetBlocks [hello])
      (settle reducer (validateBlocksToTemplate (ResetBlocks [hello]) state)
         state)
    = returns None.
Proof.
  intros state. split; [reflexivity|].
  refine (validity_settles_after_one_run reducer (ResetBlocks [hello]) state
            (λ s v, eq_refl) (λ s v, eq_refl) (λ s v, eq_refl)).
Defined.

Lemma handlers_emit_short_chains_witness :
  let state := templateStore [] [Entry "heading" ∅ None] (VStr "all") false in
  let reset := ResetBlocks [createBlock "heading" ∅ []] in
  effects (action_type reset) = []
  ∨ (action_type SynchronizeTemplate = "MERGE_BLOCKS"
     ∧ action_type reset = "REPLACE_BLOCKS")
  ∨ (action_type SynchronizeTemplate = "SYNCHRONIZE_TEMPLATE"
     ∧ action_type reset = "RESET_BLOCKS").
Proof.
  intros state reset.
  refine (handlers_emit_short_chains SynchronizeTemplate reset state
            SYNCHRONIZE_TEMPLATE _ _).
  - apply list_elem_of_singleton. reflexivity.
  - apply list_elem_of_singleton. reflexivity.
Defined.

Lemma merge_reads_two_blocks_only_witness :
  MERGE_BLOCKS (MergeBlocks ["a"; "b"]) (store [hello; world] [] None)
  = MERGE_BLOCKS (MergeBlocks ["a"; "b"; "img"])
      (store [picture; world; hello] [[hello]] (Some "b")).
Proof.
  refine (merge_reads_two_blocks_only ["a"; "b"] ["a"; "b"; "img"]
            (store [hello; world] [] None)
            (store [picture; world; hello] [[hello]] (Some "b"))
            eq_refl eq_refl eq_refl eq_refl).
Defined.

Lemma validity_reads_template_and_flag_only_witness :
  let tpl := [Entry "heading" ∅ None] in
  validateBlocksToTemplate (ResetBlocks [hello])
    (templateStore [] tpl (VStr "all") true)
  = validateBlocksToTemplate (ResetBlocks [hello])
      (templateStore [world; picture] tpl (VStr "all") true).
Proof.
  intros tpl.
  refine (validity_reads_template_and_flag_only (ResetBlocks [hello])
            (templateStore [] tpl (VStr "all") true)
            (templateStore [world; picture] tpl (VStr "all") true)
            eq_refl eq_refl eq_refl).
Defined.

End FurtherOnReference.
